(** * Verification of the CPU sampler of the serving engine (serve/sampler.cc)

    The development embeds [SampleTopPFromProb], the host buffer cache
    [CPUSampler::CopyProbsToCPU] and the two batch entry points
    [CPUSampler::BatchSampleTokens] and [CPUSampler::BatchVerifyDraftTokens]
    and proves properties about them.

    Numbers are modelled bit-exactly: a C++ [float] is an IEEE-754 binary32
    value and a [double] a binary64 value, both represented by [spec_float]
    with the arithmetic of the Standard Library's [SpecFloat]
    (round to nearest, ties to even); every operation is evaluated in the
    precision of its C++ type.  Token and row indices are integers of [Z];
    the loops index with [int], so rows have fewer than [2^31] entries.
    [std::sort] is a parameter of the sampler, any function that returns a
    descending permutation of its input.  The parallel loops are modelled by
    the order in which their iterations take effect. *)

From Stdlib Require Import ZArith Bool Lia Sorted.
From Stdlib Require Import Floats.SpecFloat.
From stdpp Require Import base list.

Open Scope Z_scope.

(** ** IEEE-754 arithmetic at the two widths used by the sampler *)

Module F32.
Definition prec : Z := 24.
Definition emax : Z := 128.
Definition t := spec_float.
Definition add : t -> t -> t := SFadd prec emax.
Definition sub : t -> t -> t := SFsub prec emax.
Definition div : t -> t -> t := SFdiv prec emax.
Definition ltb : t -> t -> bool := SFltb.
Definition leb : t -> t -> bool := SFleb.
Definition eqb : t -> t -> bool := SFeqb.
(** [a > b] and [a >= b] of C++ *)
Definition gtb (a b : t) : bool := SFltb b a.
Definition geb (a b : t) : bool := SFleb b a.
Definition of_Z (z : Z) : t := binary_normalize prec emax z 0 false.
Definition zero : t := S754_zero false.
Definition one : t := of_Z 1.
(** [std::max(a, b)] is [(a < b) ? b : a] *)
Definition max (a b : t) : t := if ltb a b then b else a.
Definition is_zero (x : t) : bool :=
  match x with S754_zero _ => true | _ => false end.
End F32.

Module F64.
Definition prec : Z := 53.
Definition emax : Z := 1024.
Definition t := spec_float.
Definition add : t -> t -> t := SFadd prec emax.
Definition sub : t -> t -> t := SFsub prec emax.
Definition div : t -> t -> t := SFdiv prec emax.
Definition ltb : t -> t -> bool := SFltb.
Definition leb : t -> t -> bool := SFleb.
Definition eqb : t -> t -> bool := SFeqb.
Definition gtb (a b : t) : bool := SFltb b a.
Definition geb (a b : t) : bool := SFleb b a.
Definition of_Z (z : Z) : t := binary_normalize prec emax z 0 false.
Definition zero : t := S754_zero false.
Definition one : t := of_Z 1.
(** the value of a decimal literal [num / den] with both parts exact *)
Definition lit (num den : Z) : t := div (of_Z num) (of_Z den).
End F64.

(** Implicit conversion [float -> double]: exact, only the representation
    is renormalised to the 53-bit mantissa. *)
Definition f64_of_f32 (x : F32.t) : F64.t :=
  match x with
  | S754_finite s m e => binary_normalize F64.prec F64.emax (cond_Zopp s (Zpos m)) e s
  | _ => x
  end.

(** Conversion [double -> float]: rounds to the 24-bit mantissa. *)
Definition f32_of_f64 (x : F64.t) : F32.t :=
  match x with
  | S754_finite s m e => binary_normalize F32.prec F32.emax (cond_Zopp s (Zpos m)) e s
  | _ => x
  end.

(** a [float] literal written [num/den]f *)
Definition f32_lit (num den : Z) : F32.t := F32.div (F32.of_Z num) (F32.of_Z den).

(** the arithmetic is opaque to [simpl]: proofs reason on the control flow *)
Arguments F32.add : simpl never.
Arguments F32.sub : simpl never.
Arguments F32.div : simpl never.
Arguments F32.ltb : simpl never.
Arguments F32.leb : simpl never.
Arguments F32.eqb : simpl never.
Arguments F32.gtb : simpl never.
Arguments F32.geb : simpl never.
Arguments F32.of_Z : simpl never.
Arguments F32.one : simpl never.
Arguments F32.zero : simpl never.
Arguments F32.max : simpl never.
Arguments F64.add : simpl never.
Arguments F64.sub : simpl never.
Arguments F64.div : simpl never.
Arguments F64.ltb : simpl never.
Arguments F64.leb : simpl never.
Arguments F64.eqb : simpl never.
Arguments F64.gtb : simpl never.
Arguments F64.geb : simpl never.
Arguments F64.of_Z : simpl never.
Arguments F64.one : simpl never.
Arguments F64.zero : simpl never.
Arguments F64.lit : simpl never.
Arguments f64_of_f32 : simpl never.
Arguments f32_of_f64 : simpl never.
Arguments f32_lit : simpl never.

(** ** Outcomes of fallible code

    [ICHECK]/[CHECK] failures abort the process ([CheckFailed]).  What the
    source leaves undefined (an access outside a vector or a tensor row,
    signed overflow) is kept apart as [Undefined]. *)

Inductive outcome (A : Type) : Type :=
| Ok (a : A)
| CheckFailed
| Undefined.
Arguments Ok {A} a.
Arguments CheckFailed {A}.
Arguments Undefined {A}.

Definition obind {A B} (x : outcome A) (f : A -> outcome B) : outcome B :=
  match x with
  | Ok a => f a
  | CheckFailed => CheckFailed
  | Undefined => Undefined
  end.

Notation "x <-- c1 ;; c2" := (obind c1 (fun x => c2))
  (at level 100, c1 at next level, right associativity).

Definition of_option {A} (o : option A) : outcome A :=
  match o with Some a => Ok a | None => Undefined end.

Definition check (b : bool) : outcome unit :=
  if b then Ok tt else CheckFailed.

(** [v[k]] for a C++ index [k] *)
Definition at_index {A} (l : list A) (k : Z) : outcome A :=
  if k <? 0 then Undefined else of_option (l !! Z.to_nat k).

(** ** Tensors *)

Inductive DLDeviceType := kDLCPU | kDLCUDA | kDLMetal | kDLVulkan.

Definition device_eqb (a b : DLDeviceType) : bool :=
  match a, b with
  | kDLCPU, kDLCPU | kDLCUDA, kDLCUDA | kDLMetal, kDLMetal | kDLVulkan, kDLVulkan => true
  | _, _ => false
  end.

(** A two-dimensional float32 tensor of shape [(shape0, shape1)]: [rows] holds
    [shape0] rows, each of [shape1] entries in a well-formed tensor. *)
Record NDArray := {
  device_type : DLDeviceType;
  shape1 : Z;
  rows : list (list F32.t)
}.

Definition shape0 (a : NDArray) : Z := Z.of_nat (length (rows a)).

(** the slice [p_prob = data + unit_offset * ndata] *)
Definition row_at (a : NDArray) (unit_offset : Z) : outcome (list F32.t) :=
  at_index (rows a) unit_offset.

(** [static_cast<int>] of a 64-bit index *)
Definition cast_int (i : Z) : Z := (i + 2^31) mod 2^32 - 2^31.

(** ** SampleTopPFromProb *)

(** [constexpr double one = 1.0f - 1e-5f] *)
Definition one : F64.t := f64_of_f32 (F32.sub F32.one (f32_lit 1 100000)).

Arguments one : simpl never.
Arguments cast_int : simpl never.

(** [top_p == 0]: the argmax scan, started at [max_prob = 0.0], [argmax_pos = -1] *)
Fixpoint argmax_loop (p_prob : list F32.t) (i : Z) (max_prob : F32.t) (argmax_pos : Z)
  : F32.t * Z :=
  match p_prob with
  | [] => (max_prob, argmax_pos)
  | x :: tl =>
      if F32.gtb x max_prob then argmax_loop tl (i + 1) x i
      else argmax_loop tl (i + 1) max_prob argmax_pos
  end.

Definition argmax_pos_of (p_prob : list F32.t) : Z :=
  snd (argmax_loop p_prob 0 F32.zero (-1)).

(** [p_output_prob[i] = i == argmax_pos ? 1.0 : 0.0] for [i] from [start] *)
Fixpoint one_hot_from (start : Z) (n : nat) (argmax_pos : Z) : list F32.t :=
  match n with
  | O => []
  | S k => (if start =? argmax_pos then F32.one else F32.zero)
             :: one_hot_from (start + 1) k argmax_pos
  end.

Definition one_hot (n : nat) (argmax_pos : Z) : list F32.t :=
  one_hot_from 0 n argmax_pos.

(** [top_p >= one]: inverse CDF over the whole row; [None] is the
    [ICHECK(false)] after the loop *)
Fixpoint cdf_loop (p_prob : list F32.t) (i : Z) (prob_sum uniform_sample : F64.t)
  : option (F32.t * Z) :=
  match p_prob with
  | [] => None
  | x :: tl =>
      let prob_sum := F64.add prob_sum (f64_of_f32 x) in
      if F64.geb prob_sum uniform_sample then Some (x, i)
      else cdf_loop tl (i + 1) prob_sum uniform_sample
  end.

(** the filter loop of [sample_top_p_with_filter]: the pairs pushed to [data] *)
Fixpoint filter_loop (cuttoff : F32.t) (p_prob : list F32.t) (i : Z) (cutoff_sum : F32.t)
  : list (F32.t * Z) :=
  match p_prob with
  | [] => []
  | x :: tl =>
      if F32.geb x cuttoff then
        let cutoff_sum := F32.add cutoff_sum x in
        (x, cast_int i) ::
          (if F32.gtb cutoff_sum (F32.sub F32.one cuttoff) then []
           else filter_loop cuttoff tl (i + 1) cutoff_sum)
      else filter_loop cuttoff tl (i + 1) cutoff_sum
  end.

(** the loop computing [top_p_sum]; it overwrites the probabilities of the
    visited candidates by their running sums and returns the updated [data]
    with the final [cum_sum_prob] and [top_p_sum] *)
Fixpoint cum_loop (top_p : F64.t) (data : list (F32.t * Z)) (cum_sum_prob top_p_sum : F32.t)
  : list (F32.t * Z) * F32.t * F32.t :=
  match data with
  | [] => ([], cum_sum_prob, top_p_sum)
  | (prob, idx) :: tl =>
      if F64.ltb (f64_of_f32 cum_sum_prob) top_p then
        let top_p_sum := F32.add top_p_sum prob in
        let cum_sum_prob := F32.add cum_sum_prob prob in
        let '(tl', c, t) := cum_loop top_p tl cum_sum_prob top_p_sum in
        ((cum_sum_prob, idx) :: tl', c, t)
      else (data, cum_sum_prob, top_p_sum)
  end.

(** the selection loop: [inl] is the pair returned from inside the loop,
    [inr] the value of [last_cum_sum_prob] when the loop runs to its end *)
Fixpoint pick_loop (uniform_sample : F64.t) (top_p_sum : F32.t)
    (data : list (F32.t * Z)) (last_cum_sum_prob : F32.t) : (F32.t * Z) + F32.t :=
  match data with
  | [] => inr last_cum_sum_prob
  | (first, second) :: tl =>
      if F64.ltb uniform_sample (f64_of_f32 (F32.div first top_p_sum)) then
        inl (F32.sub first last_cum_sum_prob, second)
      else pick_loop uniform_sample top_p_sum tl first
  end.

(** [std::make_pair(-1, -1)] converted to [std::pair<float, int64_t>] *)
Definition no_selection : F32.t * Z := (F32.of_Z (-1), -1).

(** The optional output [output_prob_dist].  A slot of the vector is an
    [NDArray]: [None] while it is not defined, [Some t] when it is a tensor
    that holds the floats [t]. *)

(** [NDArray::Empty({ndata}, ...)]: a tensor of [ndata] floats; what it
    holds before the first write is not specified, and every float of it is
    written before one is read *)
Definition Empty (ndata : nat) : list F32.t := replicate ndata F32.zero.

(** [p_output_prob[i] = ...] for every [i < ndata], through the data
    pointer of the tensor: the floats of the tensor after the first [ndata]
    keep their values, and a tensor of fewer than [ndata] floats is written
    past its end *)
Definition write_through_pointer (tensor data : list F32.t) : outcome (list F32.t) :=
  if (length data <=? length tensor)%nat then Ok (data ++ drop (length data) tensor)
  else Undefined.

(** [tensor.CopyFromBytes(p_prob, ndata * sizeof(float))].  The function
    belongs to the TVM runtime, not to the sources: the bytes copied have to
    be as many as the tensor holds, which the runtime checks ([ICHECK_EQ],
    size mismatch) before it copies.  The spec has the buffers of the
    realized distributions of the same shape as a single input row. *)
Definition CopyFromBytes (tensor data : list F32.t) : outcome (list F32.t) :=
  _ <-- check (length tensor =? length data)%nat ;;
  Ok data.

(** what the tensor of the slot holds once the function has written the
    distribution [dist] of the row [p_prob]: an undefined slot first gets a
    fresh tensor of [ndata] floats; the branch [top_p == 0] writes through
    the data pointer, the other branches copy the row with [CopyFromBytes] *)
Definition write_dist (top_p : F64.t) (slot : option (list F32.t))
    (p_prob dist : list F32.t) : outcome (list F32.t) :=
  let tensor := match slot with Some t => t | None => Empty (length p_prob) end in
  if F64.eqb top_p F64.zero then write_through_pointer tensor dist
  else CopyFromBytes tensor dist.

Section Sampler.
(** [std::sort(data.begin(), data.end(), fcmp)] with
    [fcmp lhs rhs = lhs.first > rhs.first]; the order of ties is not
    specified by the source, so the sort is a parameter. *)
Variable sort : list (F32.t * Z) -> list (F32.t * Z).

Definition sorted_candidates (cuttoff : F32.t) (p_prob : list F32.t) : list (F32.t * Z) :=
  sort (filter_loop cuttoff p_prob 0 F32.zero).

Definition sample_top_p_with_filter (p_prob : list F32.t) (top_p uniform_sample : F64.t)
    (cuttoff : F32.t) : F32.t * Z :=
  match filter_loop cuttoff p_prob 0 F32.zero with
  | [] => no_selection
  | d :: ds =>
      let data := sort (d :: ds) in
      let data0 := hd d data in
      if F64.ltb uniform_sample (F64.div (f64_of_f32 (fst data0)) top_p) then
        (fst data0, snd data0)
      else
        let '(data, cum_sum_prob, top_p_sum) := cum_loop top_p data F32.zero F32.zero in
        if F64.ltb (f64_of_f32 cum_sum_prob) top_p && negb (F32.eqb cuttoff F32.zero)
        then no_selection
        else
          match pick_loop uniform_sample top_p_sum data F32.zero with
          | inl r => r
          | inr last_cum_sum_prob =>
              let back := List.last data d in
              (F32.sub (fst back) last_cum_sum_prob, snd back)
          end
  end.

(** the tail of the function: the filtered pass and the full fallback *)
Definition fallback (p_prob : list F32.t) (top_p uniform_sample : F64.t)
  : outcome (F32.t * Z) :=
  let sampled_index := sample_top_p_with_filter p_prob top_p uniform_sample F32.zero in
  _ <-- check (0 <=? snd sampled_index) ;;
  Ok sampled_index.

Definition nucleus (p_prob : list F32.t) (top_p uniform_sample : F64.t)
  : outcome (F32.t * Z) :=
  if F64.ltb top_p (F64.of_Z 1) then
    let sampled_index :=
      sample_top_p_with_filter p_prob top_p uniform_sample
        (f32_of_f64 (F64.div top_p (F64.of_Z 1024))) in
    if 0 <=? snd sampled_index then Ok sampled_index
    else fallback p_prob top_p uniform_sample
  else fallback p_prob top_p uniform_sample.

(** The function on the row [p_prob]; the second component holds the
    [ndata] floats written to the tensor of slot [unit_offset] of
    [output_prob_dist] when the caller passes one (the write happens before
    a later check can fail). *)
Definition SampleTopPFromProb_row (p_prob : list F32.t) (top_p uniform_sample : F64.t)
  : outcome (F32.t * Z) * list F32.t :=
  if F64.eqb top_p F64.zero then
    let argmax_pos := argmax_pos_of p_prob in
    (Ok (F32.one, argmax_pos), one_hot (length p_prob) argmax_pos)
  else if F64.geb top_p one then
    (match cdf_loop p_prob 0 F64.zero uniform_sample with
     | Some r => Ok r
     | None => CheckFailed
     end, p_prob)
  else (nucleus p_prob top_p uniform_sample, p_prob).

Definition SampleTopPFromProb (prob : NDArray) (unit_offset : Z)
    (top_p uniform_sample : F64.t) : outcome ((F32.t * Z) * list F32.t) :=
  p_prob <-- row_at prob unit_offset ;;
  let '(r, dist) := SampleTopPFromProb_row p_prob top_p uniform_sample in
  s <-- r ;;
  Ok (s, dist).

(** The function on the row [p_prob] and the slot of its distribution; the
    second component is the tensor the slot holds afterwards. *)
Definition SampleTopPFromProb_row_out (p_prob : list F32.t) (top_p uniform_sample : F64.t)
    (slot : option (list F32.t)) : outcome ((F32.t * Z) * list F32.t) :=
  let '(r, dist) := SampleTopPFromProb_row p_prob top_p uniform_sample in
  tensor <-- write_dist top_p slot p_prob dist ;;
  s <-- r ;;
  Ok (s, tensor).

(** [SampleTopPFromProb(prob, unit_offset, top_p, uniform_sample,
    output_prob_dist)] with [output_prob_dist != nullptr] *)
Definition SampleTopPFromProb_out (prob : NDArray) (unit_offset : Z)
    (top_p uniform_sample : F64.t) (output_prob_dist : list (option (list F32.t)))
  : outcome ((F32.t * Z) * list (option (list F32.t))) :=
  p_prob <-- row_at prob unit_offset ;;
  slot <-- at_index output_prob_dist unit_offset ;;
  r <-- SampleTopPFromProb_row_out p_prob top_p uniform_sample slot ;;
  Ok (r.1, <[Z.to_nat unit_offset := Some r.2]> output_prob_dist).
End Sampler.

(** A sort to run the sampler with: insertion sort by [fcmp]; among equal
    probabilities the later index comes first. *)
Definition fcmp (lhs rhs : F32.t * Z) : bool := F32.gtb (fst lhs) (fst rhs).

Fixpoint insert_desc (x : F32.t * Z) (l : list (F32.t * Z)) : list (F32.t * Z) :=
  match l with
  | [] => [x]
  | y :: tl => if fcmp x y then x :: y :: tl else y :: insert_desc x tl
  end.

Fixpoint isort (l : list (F32.t * Z)) : list (F32.t * Z) :=
  match l with
  | [] => []
  | x :: tl => insert_desc x (isort tl)
  end.

(** ** The host buffer cache: CPUSampler::CopyProbsToCPU *)

(** the member [probs_host_] when defined: only its shape matters, the
    contents are overwritten by every copy *)
Record HostBuffer := {
  hb_shape0 : Z;
  hb_shape1 : Z
}.

Definition int64_max : Z := 2^63 - 1.

(** [while (init_size < num_tokens) init_size *= 2;] on [int64_t] *)
Fixpoint grow_loop (fuel : nat) (init_size num_tokens : Z) : outcome Z :=
  if init_size <? num_tokens then
    match fuel with
    | O => Undefined
    | S fuel' =>
        if 2 * init_size <=? int64_max then grow_loop fuel' (2 * init_size) num_tokens
        else Undefined
    end
  else Ok init_size.

Definition CopyProbsToCPU (probs_host_ : option HostBuffer) (probs_device : NDArray)
  : outcome (NDArray * option HostBuffer) :=
  _ <-- check (negb (device_eqb (device_type probs_device) kDLCPU)) ;;
  _ <-- match probs_host_ with
        | Some h => check (hb_shape1 h =? shape1 probs_device)
        | None => Ok tt
        end ;;
  let init_size := match probs_host_ with Some h => hb_shape0 h | None => 32 end in
  let num_tokens := shape0 probs_device in
  let vocab_size := shape1 probs_device in
  init_size <-- grow_loop 64 init_size num_tokens ;;
  let h' :=
    match probs_host_ with
    | Some h =>
        if negb (init_size =? hb_shape0 h)
        then {| hb_shape0 := init_size; hb_shape1 := vocab_size |} else h
    | None => {| hb_shape0 := init_size; hb_shape1 := vocab_size |}
    end in
  _ <-- check (num_tokens <=? hb_shape0 h') ;;
  let view := {| device_type := kDLCPU; shape1 := vocab_size; rows := rows probs_device |} in
  Ok (view, Some h').

(** ** Per-request inputs *)

Record GenerationConfig := {
  temperature : F64.t;
  top_p : F64.t
}.

(** [const float eps_ = 1e-5] *)
Definition eps_ : F32.t := f32_of_f64 (F64.lit 1 100000).

Arguments eps_ : simpl never.

(** [generation_cfg[i]->temperature < eps_ ? 0.0 : generation_cfg[i]->top_p] *)
Definition resolved_top_p (cfg : GenerationConfig) : F64.t :=
  if F64.ltb (temperature cfg) (f64_of_f32 eps_) then F64.zero else top_p cfg.

(** Modelled from the spec: [RandomGenerator] (random.h is not among the
    sources), which "supplies one uniform draw per request per sampling
    decision".  A generator is the stream of its future draws and a
    cursor; each [GetRandomNumber] returns the next draw as a [double]. *)
Record RandomGenerator := {
  draws : nat -> F64.t;
  cursor : nat
}.

Definition GetRandomNumber (g : RandomGenerator) : F64.t * RandomGenerator :=
  (draws g (cursor g), {| draws := draws g; cursor := S (cursor g) |}).

(** [parallel_for_with_threading_backend(task, 0, n)]: every index is run
    once; [sched] is the order in which the runs take effect.  A failed
    check in one run aborts the whole call. *)
Fixpoint parallel_for {S} (task : nat -> S -> outcome S) (sched : list nat) (st : S)
  : outcome S :=
  match sched with
  | [] => Ok st
  | i :: rest => st' <-- task i st ;; parallel_for task rest st'
  end.

(** The runs of a loop are started together.  When the runs are independent
    of each other and one of them has no defined behaviour on the state the
    loop starts from, the call has none either, whichever run takes effect
    first and whether or not another run fails a check. *)
Definition runs_defined {S} (task : nat -> S -> outcome S) (indices : list nat) (st : S)
  : outcome unit :=
  if forallb (fun i => match task i st with Undefined => false | _ => true end) indices
  then Ok tt else Undefined.

(** ** CPUSampler::BatchSampleTokens *)

(** the generators and the output slots the row tasks write; a slot of
    [output_prob_dist] is [None] while its tensor is not defined *)
Record SampleState := {
  ss_rngs : list RandomGenerator;
  sampled_tokens : list Z;
  output_prob_dist : option (list (option (list F32.t)));
  output_token_probs : option (list F32.t)
}.

(** ** CPUSampler::BatchVerifyDraftTokens *)

(** a one-dimensional tensor: a draft distribution [q_dist] *)
Record NDArray1 := {
  device_type1 : DLDeviceType;
  data1 : list F32.t
}.

Record VerifyState := {
  vs_probs : NDArray;                 (* probs_host, updated in place *)
  vs_rngs : list RandomGenerator;
  request_mstates : list (list Z);    (* committed tokens, CommitToken appends *)
  accepted_tokens : list (list Z)
}.

(** [p_probs[j] = std::max(p_probs[j] - p_qdist[j], 0.0f)] for every [j] *)
Definition residual (p_probs p_qdist : list F32.t) : list F32.t :=
  zip_with (fun p q => F32.max (F32.sub p q) F32.zero) p_probs p_qdist.

(** [sum_v], accumulated in double precision *)
Definition sum_of (l : list F32.t) : F64.t :=
  foldl (fun s x => F64.add s (f64_of_f32 x)) F64.zero l.

(** [p_probs[j] /= sum_v] for every [j] *)
Definition normalized (l : list F32.t) (sum_v : F64.t) : list F32.t :=
  map (fun x => f32_of_f64 (F64.div (f64_of_f32 x) sum_v)) l.

Definition residual_row (p_probs p_qdist : list F32.t) : list F32.t :=
  let r := residual p_probs p_qdist in normalized r (sum_of r).

Definition set_row (a : NDArray) (k : Z) (r : list F32.t) : NDArray :=
  {| device_type := device_type a; shape1 := shape1 a;
     rows := <[Z.to_nat k := r]> (rows a) |}.

(** [request_mstates[i]->CommitToken(t); accepted_tokens[i].push_back(a)].
    Modelled from the spec: [RequestModelState::CommitToken] (the model state
    is not among the sources), "the model-state object that stores each
    request's committed token history": the state of a request is the list
    of its committed tokens and [CommitToken] appends to it. *)
Definition commit_and_record (i : nat) (committed recorded : Z) (st : VerifyState)
  : outcome VerifyState :=
  m <-- of_option (request_mstates st !! i) ;;
  a <-- of_option (accepted_tokens st !! i) ;;
  Ok {| vs_probs := vs_probs st; vs_rngs := vs_rngs st;
        request_mstates := <[i := m ++ [committed]]> (request_mstates st);
        accepted_tokens := <[i := a ++ [recorded]]> (accepted_tokens st) |}.

Definition draw (i : nat) (st : VerifyState) : outcome (F64.t * VerifyState) :=
  g <-- of_option (vs_rngs st !! i) ;;
  let '(x, g') := GetRandomNumber g in
  Ok (x, {| vs_probs := vs_probs st; vs_rngs := <[i := g']> (vs_rngs st);
            request_mstates := request_mstates st;
            accepted_tokens := accepted_tokens st |}).

Section Batch.
Variable sort : list (F32.t * Z) -> list (F32.t * Z).

(** the body of the parallel loop of BatchSampleTokens for row [i] *)
Definition sample_task (probs_host : NDArray) (generation_cfg : list GenerationConfig)
    (i : nat) (st : SampleState) : outcome SampleState :=
  cfg <-- of_option (generation_cfg !! i) ;;
  g <-- of_option (ss_rngs st !! i) ;;
  let '(u, g') := GetRandomNumber g in
  let top_p := resolved_top_p cfg in
  sample_result <--
    match output_prob_dist st with
    | Some slots =>
        r <-- SampleTopPFromProb_out sort probs_host (Z.of_nat i) top_p u slots ;;
        Ok (r.1, Some r.2)
    | None =>
        r <-- SampleTopPFromProb sort probs_host (Z.of_nat i) top_p u ;;
        Ok (r.1, None)
    end ;;
  let '((prob, token), slots) := sample_result in
  Ok {| ss_rngs := <[i := g']> (ss_rngs st);
        sampled_tokens := <[i := cast_int token]> (sampled_tokens st);
        output_prob_dist := slots;
        output_token_probs := (fun d => <[i := prob]> d) <$> output_token_probs st |}.

(** BatchSampleTokens with the order [sched] in which the rows are
    processed; [request_ids] only feeds the event trace and the length
    check.  The run for a row reads and writes its own row, generator and
    output slots only; a run that writes past the end of a tensor of the
    caller leaves the call without a defined result in every order
    ([runs_defined]). *)
Definition BatchSampleTokens_sched (sched : nat -> list nat)
    (probs_host_ : option HostBuffer) (probs_device : NDArray)
    (request_ids : list nat) (generation_cfg : list GenerationConfig)
    (rngs : list RandomGenerator)
    (out_dist : option (list (option (list F32.t))))
    (out_probs : option (list F32.t))
  : outcome (SampleState * option HostBuffer) :=
  copied <-- CopyProbsToCPU probs_host_ probs_device ;;
  let '(probs_host, cache) := copied in
  _ <-- check (shape0 probs_host =? Z.of_nat (length request_ids)) ;;
  _ <-- check (shape0 probs_host =? Z.of_nat (length generation_cfg)) ;;
  _ <-- check (shape0 probs_host =? Z.of_nat (length rngs)) ;;
  let n := length (rows probs_host) in
  let st := {| ss_rngs := rngs;
               sampled_tokens := replicate n 0;
               output_prob_dist := resize n None <$> out_dist;
               output_token_probs := resize n F32.zero <$> out_probs |} in
  _ <-- runs_defined (sample_task probs_host generation_cfg) (seq 0 n) st ;;
  st' <-- parallel_for (sample_task probs_host generation_cfg) (sched n) st ;;
  Ok (st', cache).

Definition BatchSampleTokens := BatchSampleTokens_sched (seq 0).

(** one iteration of the loop over the draft positions of sequence [i];
    the boolean tells whether the loop goes on ([continue]) or stops
    ([break]) *)
Definition verify_position
    (generation_cfg : list GenerationConfig)
    (draft_output_tokens : list (list Z))
    (draft_output_token_prob : list (list F32.t))
    (draft_output_prob_dist : list (list NDArray1))
    (i : nat) (verify_start cur_token_idx : Z) (st : VerifyState)
  : outcome (VerifyState * bool) :=
  let vocab_size := shape1 (vs_probs st) in
  p_probs <-- row_at (vs_probs st) (verify_start + cur_token_idx) ;;
  toks <-- of_option (draft_output_tokens !! i) ;;
  cur_token <-- at_index toks cur_token_idx ;;
  qs <-- of_option (draft_output_token_prob !! i) ;;
  q_value <-- at_index qs cur_token_idx ;;
  p_value <-- at_index p_probs cur_token ;;
  if F32.geb p_value q_value then
    st <-- commit_and_record i cur_token cur_token st ;;
    Ok (st, true)
  else
    rd <-- draw i st ;;
    let '(x, st) := rd in
    let r := f32_of_f64 x in
    if F32.ltb r (F32.div p_value (F32.add q_value eps_)) then
      st <-- commit_and_record i cur_token cur_token st ;;
      Ok (st, true)
    else
      dists <-- of_option (draft_output_prob_dist !! i) ;;
      q_dist <-- at_index dists cur_token_idx ;;
      _ <-- check (device_eqb (device_type1 q_dist) kDLCPU) ;;
      _ <-- check (vocab_size =? Z.of_nat (length (data1 q_dist))) ;;
      let probs := set_row (vs_probs st) (verify_start + cur_token_idx)
                     (residual_row p_probs (data1 q_dist)) in
      cfg <-- of_option (generation_cfg !! i) ;;
      rd <-- draw i st ;;
      let '(u, st) := rd in
      sampled <-- SampleTopPFromProb sort probs (verify_start + cur_token_idx)
                    (resolved_top_p cfg) u ;;
      let new_token := cast_int (snd (fst sampled)) in
      let st := {| vs_probs := probs; vs_rngs := vs_rngs st;
                   request_mstates := request_mstates st;
                   accepted_tokens := accepted_tokens st |} in
      st <-- commit_and_record i new_token cur_token st ;;
      Ok (st, false).

(** the loop over [cur_token_idx], [n] iterations left *)
Fixpoint verify_loop
    (generation_cfg : list GenerationConfig)
    (draft_output_tokens : list (list Z))
    (draft_output_token_prob : list (list F32.t))
    (draft_output_prob_dist : list (list NDArray1))
    (i : nat) (verify_start : Z) (n : nat) (cur_token_idx : Z) (st : VerifyState)
  : outcome VerifyState :=
  match n with
  | O => Ok st
  | S n' =>
      step <-- verify_position generation_cfg draft_output_tokens draft_output_token_prob
                 draft_output_prob_dist i verify_start cur_token_idx st ;;
      let '(st', continue) := step in
      if (continue : bool) then
        verify_loop generation_cfg draft_output_tokens draft_output_token_prob
          draft_output_prob_dist i verify_start n' (cur_token_idx + 1) st'
      else Ok st'
  end.

(** the body of the parallel loop of BatchVerifyDraftTokens for sequence [i] *)
Definition verify_task
    (cum_verify_lengths : list Z)
    (generation_cfg : list GenerationConfig)
    (draft_output_tokens : list (list Z))
    (draft_output_token_prob : list (list F32.t))
    (draft_output_prob_dist : list (list NDArray1))
    (i : nat) (st : VerifyState) : outcome VerifyState :=
  verify_start <-- of_option (cum_verify_lengths !! i) ;;
  verify_end <-- of_option (cum_verify_lengths !! S i) ;;
  verify_loop generation_cfg draft_output_tokens draft_output_token_prob
    draft_output_prob_dist i verify_start (Z.to_nat (verify_end - verify_start)) 0 st.

Definition BatchVerifyDraftTokens_sched (sched : nat -> list nat)
    (probs_host_ : option HostBuffer) (probs_device : NDArray)
    (cum_verify_lengths : list Z)
    (mstates : list (list Z))
    (generation_cfg : list GenerationConfig)
    (rngs : list RandomGenerator)
    (draft_output_tokens : list (list Z))
    (draft_output_token_prob : list (list F32.t))
    (draft_output_prob_dist : list (list NDArray1))
  : outcome (VerifyState * option HostBuffer) :=
  copied <-- CopyProbsToCPU probs_host_ probs_device ;;
  let '(probs_host, cache) := copied in
  let num_sequence := Z.of_nat (length cum_verify_lengths) - 1 in
  _ <-- check (Z.of_nat (length rngs) =? num_sequence) ;;
  _ <-- check (Z.of_nat (length draft_output_tokens) =? num_sequence) ;;
  _ <-- check (Z.of_nat (length draft_output_token_prob) =? num_sequence) ;;
  _ <-- check (Z.of_nat (length draft_output_prob_dist) =? num_sequence) ;;
  let st := {| vs_probs := probs_host; vs_rngs := rngs;
               request_mstates := mstates;
               accepted_tokens := replicate (Z.to_nat num_sequence) [] |} in
  st' <-- parallel_for
            (verify_task cum_verify_lengths generation_cfg draft_output_tokens
               draft_output_token_prob draft_output_prob_dist)
            (sched (Z.to_nat num_sequence)) st ;;
  Ok (st', cache).

Definition BatchVerifyDraftTokens := BatchVerifyDraftTokens_sched (seq 0).
End Batch.

(** * Vocabulary of the statements *)

(** ** Floating-point order *)

Definition fkey (x : spec_float) : option (Z * Z * Z) :=
  match x with
  | S754_nan => None
  | S754_zero _ => Some (0, 0, 0)
  | S754_infinity false => Some (2, 0, 0)
  | S754_infinity true => Some (-2, 0, 0)
  | S754_finite false m e => Some (1, e, Zpos m)
  | S754_finite true m e => Some (-1, - e, Zneg m)
  end.

Definition lexlt (a b : Z * Z * Z) : Prop :=
  a.1.1 < b.1.1 \/
  (a.1.1 = b.1.1 /\ (a.1.2 < b.1.2 \/ (a.1.2 = b.1.2 /\ a.2 < b.2))).

Definition is_nan (x : spec_float) : bool :=
  match x with S754_nan => true | _ => false end.

Definition finite (x : spec_float) : bool :=
  match x with S754_zero _ | S754_finite _ _ _ => true | _ => false end.

Definition signed_or_zero (x : spec_float) : Prop :=
  match x with
  | S754_zero _ | S754_finite true _ _ | S754_infinity true => True
  | _ => False
  end.

(** ** The argmax scan *)

(** what the scan knows after the entries [pre] *)
Record argmax_inv (pre : list F32.t) (max_prob : F32.t) (argmax_pos : Z) : Prop := {
  inv_not_nan : is_nan max_prob = false;
  inv_nonneg : SFleb F32.zero max_prob = true;
  inv_upper : forall y, y ∈ pre -> F32.gtb y max_prob = false;
  inv_pos :
    (argmax_pos = -1 /\ max_prob = F32.zero) \/
    (0 <= argmax_pos /\ pre !! Z.to_nat argmax_pos = Some max_prob /\
     F32.gtb max_prob F32.zero = true /\
     forall (j : nat) y, Z.of_nat j < argmax_pos -> pre !! j = Some y ->
                         F32.gtb max_prob y = true \/ is_nan y = true)
}.

(** ** The passes of the nucleus branch *)

(** the entries at or above the cutoff with their indices, no early stop *)
Fixpoint kept (cuttoff : F32.t) (p_prob : list F32.t) (i : Z) : list (F32.t * Z) :=
  match p_prob with
  | [] => []
  | x :: tl =>
      if F32.geb x cuttoff then (x, cast_int i) :: kept cuttoff tl (i + 1)
      else kept cuttoff tl (i + 1)
  end.

(** the value of [cutoff_sum] after collecting [data], started at [s] *)
Definition running_sum (s : F32.t) (data : list (F32.t * Z)) : F32.t :=
  foldl (fun acc d => F32.add acc (fst d)) s data.

Definition exceeds (cuttoff s : F32.t) (data : list (F32.t * Z)) : bool :=
  F32.gtb (running_sum s data) (F32.sub F32.one cuttoff).

(** the three tests of a pass *)
Definition fast_exit (top_p u : F64.t) (data : list (F32.t * Z)) : bool :=
  match data with
  | [] => false
  | data0 :: _ => F64.ltb u (F64.div (f64_of_f32 (fst data0)) top_p)
  end.

Definition insufficient (top_p : F64.t) (cuttoff : F32.t) (data : list (F32.t * Z)) : bool :=
  F64.ltb (f64_of_f32 (cum_loop top_p data F32.zero F32.zero).1.2) top_p
  && negb (F32.eqb cuttoff F32.zero).




(** ** The host buffer cache *)

(** a run of calls on one sampler, each call handed the cache left by the
    previous one *)
Fixpoint copy_calls (probs_host_ : option HostBuffer) (calls : list NDArray)
  : outcome (option HostBuffer) :=
  match calls with
  | [] => Ok probs_host_
  | a :: rest =>
      r <-- CopyProbsToCPU probs_host_ a ;;
      copy_calls r.2 rest
  end.

Definition capacity (probs_host_ : option HostBuffer) : Z :=
  match probs_host_ with Some h => hb_shape0 h | None => 32 end.

Definition call_ok (w : Z) (a : NDArray) : Prop :=
  device_type a <> kDLCPU /\ shape1 a = w /\ shape0 a <= 2^62.

(** ** Draft verification *)

(** the state after [CommitToken(committed)] and
    [push_back(recorded)] on sequence [i] *)
Definition after_commit (i : nat) (m a : list Z) (committed recorded : Z)
    (probs : NDArray) (rngs : list RandomGenerator) (st : VerifyState) : VerifyState :=
  {| vs_probs := probs; vs_rngs := rngs;
     request_mstates := <[i := m ++ [committed]]> (request_mstates st);
     accepted_tokens := <[i := a ++ [recorded]]> (accepted_tokens st) |}.

(** the generator of sequence [i] after [n] more draws *)
Definition advance (n : nat) (g : RandomGenerator) : RandomGenerator :=
  {| draws := draws g; cursor := (n + cursor g)%nat |}.

(** what position [cur_token_idx] of sequence [i] reads *)
Record reads (draft_output_tokens : list (list Z))
    (draft_output_token_prob : list (list F32.t))
    (i : nat) (verify_start cur_token_idx : Z) (st : VerifyState)
    (p_probs : list F32.t) (cur_token : Z) (q_value p_value : F32.t)
    (m a : list Z) : Prop := {
  read_row : row_at (vs_probs st) (verify_start + cur_token_idx) = Ok p_probs;
  read_token : exists toks, draft_output_tokens !! i = Some toks /\
                            at_index toks cur_token_idx = Ok cur_token;
  read_q : exists qs, draft_output_token_prob !! i = Some qs /\
                      at_index qs cur_token_idx = Ok q_value;
  read_p : at_index p_probs cur_token = Ok p_value;
  read_mstate : request_mstates st !! i = Some m;
  read_accepted : accepted_tokens st !! i = Some a
}.

(** what a rejection reads in addition *)
Record reject_reads (generation_cfg : list GenerationConfig)
    (draft_output_prob_dist : list (list NDArray1))
    (i : nat) (cur_token_idx : Z) (st : VerifyState)
    (g : RandomGenerator) (q_dist : NDArray1) (cfg : GenerationConfig) : Prop := {
  read_rng : vs_rngs st !! i = Some g;
  read_dist : exists dists, draft_output_prob_dist !! i = Some dists /\
                            at_index dists cur_token_idx = Ok q_dist;
  dist_on_host : device_type1 q_dist = kDLCPU;
  dist_width : shape1 (vs_probs st) = Z.of_nat (length (data1 q_dist));
  read_cfg : generation_cfg !! i = Some cfg
}.

(** ** Batch sampling *)

(** slot [i] of the requested distributions ([None]: none is requested) *)
Definition slot_of (out : option (list (option (list F32.t)))) (i : nat)
  : outcome (option (option (list F32.t))) :=
  match out with
  | None => Ok None
  | Some slots => slot <-- of_option (slots !! i) ;; Ok (Some slot)
  end.

(** what the run for row [i] computes from its row, its configuration, the
    next draw of its generator and its slot: the pair returned and, when
    the distributions are requested, the tensor left in the slot *)
Definition sample_row (sort : list (F32.t * Z) -> list (F32.t * Z)) (probs_host : NDArray)
    (i : nat) (cfg : GenerationConfig) (g : RandomGenerator)
    (slot : option (option (list F32.t)))
  : outcome ((F32.t * Z) * option (list F32.t)) :=
  p_prob <-- row_at probs_host (Z.of_nat i) ;;
  match slot with
  | Some slot =>
      r <-- SampleTopPFromProb_row_out sort p_prob (resolved_top_p cfg)
              (draws g (cursor g)) slot ;;
      Ok (r.1, Some r.2)
  | None =>
      s <-- (SampleTopPFromProb_row sort p_prob (resolved_top_p cfg)
               (draws g (cursor g))).1 ;;
      Ok (s, None)
  end.

(** what the run for row [i] stores *)
Definition write_slots (i : nat) (g' : RandomGenerator)
    (r : (F32.t * Z) * option (list F32.t)) (st : SampleState) : SampleState :=
  {| ss_rngs := <[i := g']> (ss_rngs st);
     sampled_tokens := <[i := cast_int r.1.2]> (sampled_tokens st);
     output_prob_dist :=
       (fun d => match r.2 with Some t => <[i := Some t]> d | None => d end)
         <$> output_prob_dist st;
     output_token_probs := (fun d => <[i := r.1.1]> d) <$> output_token_probs st |}.

(** the write of the one-hot row leaves the tensor of the slot *)
Definition overruns (top_p : F64.t) (slot : option (option (list F32.t)))
    (p_prob : list F32.t) : bool :=
  match slot with
  | Some (Some t) => F64.eqb top_p F64.zero && (length t <? length p_prob)%nat
  | _ => false
  end.

Definition is_undefined {A} (o : outcome A) : bool :=
  match o with Undefined => true | _ => false end.

(** what the loop of BatchSampleTokens relies on between two runs: as many
    generators and slots as rows, and no slot that a run would overrun *)
Record batch_inv (probs_host : NDArray) (generation_cfg : list GenerationConfig)
    (st : SampleState) : Prop := {
  inv_rngs : length (ss_rngs st) = length (rows probs_host);
  inv_cfgs : length generation_cfg = length (rows probs_host);
  inv_slots : forall slots, output_prob_dist st = Some slots ->
                            length slots = length (rows probs_host);
  inv_fits : forall (i : nat) cfg p_prob slot,
      generation_cfg !! i = Some cfg -> rows probs_host !! i = Some p_prob ->
      slot_of (output_prob_dist st) i = Ok slot ->
      overruns (resolved_top_p cfg) slot p_prob = false
}.

Definition in_range (n i : nat) : Prop := (i < n)%nat.

(** ** Inputs of the concrete runs *)

(** the row of the end-to-end example, [0.5, 0.3, 0.2] *)
Definition example_row : list F32.t := [f32_lit 1 2; f32_lit 3 10; f32_lit 2 10].



Definition zero_row : list F32.t := [F32.zero; F32.zero; F32.zero].

Definition nonpositive_row : list F32.t := [F32.zero; f32_lit (-1) 2; F32.zero].

Definition device_array (w : Z) (n : nat) : NDArray :=
  {| device_type := kDLCUDA; shape1 := w;
     rows := replicate n (replicate (Z.to_nat w) F32.zero) |}.

Definition host_array : NDArray :=
  {| device_type := kDLCPU; shape1 := 3; rows := [example_row] |}.

(** a draft verification in which the only draft token is rejected *)
Definition target_row : list F32.t := [f32_lit 1 8; f32_lit 1 2; f32_lit 3 8].

Definition draft_row : list F32.t := [f32_lit 3 4; f32_lit 1 8; f32_lit 1 8].

Definition target_probs : NDArray :=
  {| device_type := kDLCUDA; shape1 := 3; rows := [target_row] |}.

Definition greedy_cfg : GenerationConfig :=
  {| temperature := F64.zero; top_p := F64.lit 9 10 |}.

Definition two_draws : RandomGenerator :=
  {| draws := fun n => match n with O => F64.lit 1 2 | _ => F64.lit 95 100 end;
     cursor := 0 |}.

Definition draft_dist : NDArray1 := {| device_type1 := kDLCPU; data1 := draft_row |}.

Definition verify_start_state : VerifyState :=
  {| vs_probs := {| device_type := kDLCPU; shape1 := 3; rows := [target_row] |};
     vs_rngs := [two_draws]; request_mstates := [[]]; accepted_tokens := [[]] |}.

(** a batch of two rows *)
Definition two_rows : NDArray :=
  {| device_type := kDLCUDA; shape1 := 3; rows := [example_row; target_row] |}.

Definition sampling_cfg : GenerationConfig :=
  {| temperature := F64.one; top_p := F64.lit 7 10 |}.

(** ** Vocabulary of the further properties *)

(** the running sum of the inverse-CDF branch, continued from [s] *)
Definition cdf_sum (s : F64.t) (l : list F32.t) : F64.t :=
  foldl (fun acc x => F64.add acc (f64_of_f32 x)) s l.

(** the number of sorted candidates the loop computing [top_p_sum] visits
    before its [break]: those whose preceding cumulative sum is below
    [top_p] *)
Fixpoint nucleus_size (top_p : F64.t) (data : list (F32.t * Z)) (cum_sum_prob : F32.t)
  : nat :=
  match data with
  | [] => O
  | (prob, _) :: tl =>
      if F64.ltb (f64_of_f32 cum_sum_prob) top_p
      then S (nucleus_size top_p tl (F32.add cum_sum_prob prob))
      else O
  end.

Definition finite_nonzero (x : spec_float) : bool :=
  match x with S754_finite _ _ _ => true | _ => false end.







(** ** Inputs of the concrete runs of the further properties *)

Definition nan_row : list F32.t := [S754_nan; S754_nan].

(** a target row that gives no probability to token 0 *)
Definition unsupported_row : list F32.t := [F32.zero; f32_lit 1 2; f32_lit 1 2].

Definition unsupported_state : VerifyState :=
  {| vs_probs := {| device_type := kDLCPU; shape1 := 3; rows := [unsupported_row] |};
     vs_rngs := [two_draws]; request_mstates := [[]]; accepted_tokens := [[]] |}.

(** a target row and a draft distribution that is nowhere below it *)
Definition flat_row : list F32.t := [f32_lit 1 2; f32_lit 1 2].

Definition above_flat_dist : NDArray1 :=
  {| device_type1 := kDLCPU; data1 := [f32_lit 5000001 10000000; f32_lit 1 2] |}.

Definition high_draws : RandomGenerator :=
  {| draws := fun _ => F64.lit 999999 1000000; cursor := 0 |}.

Definition flat_state : VerifyState :=
  {| vs_probs := {| device_type := kDLCPU; shape1 := 2; rows := [flat_row] |};
     vs_rngs := [high_draws]; request_mstates := [[]]; accepted_tokens := [[]] |}.




(** * Properties *)

(** ** The order of floating-point comparisons

    Every value but NaN has a key; [SFcompare] is the lexicographic order
    of the keys. *)

Lemma fkey_nan x : fkey x = None <-> is_nan x = true.
Proof. destruct x as [[]|[]| |[] m e]; simpl; split; congruence. Qed.

Lemma SFcompare_key x y :
  match fkey x, fkey y with
  | Some a, Some b =>
      (SFcompare x y = Some Lt /\ lexlt a b) \/
      (SFcompare x y = Some Eq /\ a = b) \/
      (SFcompare x y = Some Gt /\ lexlt b a)
  | _, _ => SFcompare x y = None
  end.
Proof.
  destruct x as [[]|[]| |[] m1 e1], y as [[]|[]| |[] m2 e2]; simpl;
    unfold lexlt; simpl;
    try reflexivity; try (left; split; [reflexivity | lia]);
    try (right; left; split; reflexivity);
    try (right; right; split; [reflexivity | lia]).
  - destruct (Z.compare_spec e1 e2) as [He|He|He].
    + subst e2. change (Pos.compare_cont Eq m1 m2) with (Pos.compare m1 m2).
      destruct (Pos.compare_spec m1 m2) as [Hm|Hm|Hm]; simpl.
      * subst. right; left; split; reflexivity.
      * right; right; split; [reflexivity | lia].
      * left; split; [reflexivity | lia].
    + right; right; split; [reflexivity | lia].
    + left; split; [reflexivity | lia].
  - destruct (Z.compare_spec e1 e2) as [He|He|He].
    + subst e2. change (Pos.compare_cont Eq m1 m2) with (Pos.compare m1 m2).
      destruct (Pos.compare_spec m1 m2) as [Hm|Hm|Hm].
      * subst. right; left; split; reflexivity.
      * left; split; [reflexivity | lia].
      * right; right; split; [reflexivity | lia].
    + left; split; [reflexivity | lia].
    + right; right; split; [reflexivity | lia].
Qed.

Lemma ltb_key x y :
  SFltb x y = true <-> exists a b, fkey x = Some a /\ fkey y = Some b /\ lexlt a b.
Proof.
  unfold SFltb. pose proof (SFcompare_key x y) as H.
  destruct (fkey x) as [a|], (fkey y) as [b|].
  - destruct H as [[-> L]|[[-> E]|[-> G]]]; split; intros K; try discriminate; eauto.
    + destruct K as (a' & b' & [= <-] & [= <-] & K). subst. unfold lexlt in K. lia.
    + destruct K as (a' & b' & [= <-] & [= <-] & K). unfold lexlt in *. lia.
  - rewrite H. split; [discriminate | intros (? & ? & ? & ? & ?); discriminate].
  - rewrite H. split; [discriminate | intros (? & ? & ? & ? & ?); discriminate].
  - rewrite H. split; [discriminate | intros (? & ? & ? & ? & ?); discriminate].
Qed.

Lemma leb_key x y :
  SFleb x y = true <->
  exists a b, fkey x = Some a /\ fkey y = Some b /\ (lexlt a b \/ a = b).
Proof.
  unfold SFleb. pose proof (SFcompare_key x y) as H.
  destruct (fkey x) as [a|], (fkey y) as [b|].
  - destruct H as [[-> L]|[[-> E]|[-> G]]]; split; intros K; try discriminate; eauto 6.
    destruct K as (a' & b' & [= <-] & [= <-] & [K| ->]); unfold lexlt in *; lia.
  - rewrite H. split; [discriminate | intros (? & ? & ? & ? & ?); discriminate].
  - rewrite H. split; [discriminate | intros (? & ? & ? & ? & ?); discriminate].
  - rewrite H. split; [discriminate | intros (? & ? & ? & ? & ?); discriminate].
Qed.


Lemma lexlt_total (a b : Z * Z * Z) : lexlt a b \/ a = b \/ lexlt b a.
Proof.
  destruct a as [[a1 a2] a3], b as [[b1 b2] b3]. unfold lexlt; simpl.
  destruct (Z.lt_trichotomy a1 b1) as [?|[?|?]];
    destruct (Z.lt_trichotomy a2 b2) as [?|[?|?]];
    destruct (Z.lt_trichotomy a3 b3) as [?|[?|?]]; subst; auto; lia.
Qed.

Lemma lexlt_trans a b c : lexlt a b -> lexlt b c -> lexlt a c.
Proof. unfold lexlt. lia. Qed.

Lemma lexlt_irrefl a : ~ lexlt a a.
Proof. unfold lexlt. lia. Qed.

(** [x > y] is false and neither is NaN: then [x <= y] *)
Lemma not_gtb_leb x y :
  is_nan x = false -> is_nan y = false -> F32.gtb x y = false -> SFleb x y = true.
Proof.
  intros Hx Hy H. apply leb_key.
  destruct (fkey x) as [a|] eqn:Ex; [|apply fkey_nan in Ex; congruence].
  destruct (fkey y) as [b|] eqn:Ey; [|apply fkey_nan in Ey; congruence].
  exists a, b. repeat split; auto.
  destruct (lexlt_total a b) as [?|[?|G]]; auto.
  exfalso. assert (SFltb y x = true) by (apply ltb_key; eauto).
  unfold F32.gtb in H. congruence.
Qed.

Lemma ltb_not_nan x y : SFltb x y = true -> is_nan x = false /\ is_nan y = false.
Proof.
  intros (a & b & Ha & Hb & _)%ltb_key.
  destruct x, y; simpl in *; auto; discriminate.
Qed.

Lemma leb_ltb_trans x y z : SFleb x y = true -> SFltb y z = true -> SFltb x z = true.
Proof.
  intros (a & b & Ha & Hb & H1)%leb_key (b' & c & Hb' & Hc & H2)%ltb_key.
  apply ltb_key. exists a, c. repeat split; auto.
  assert (b' = b) by congruence. subst.
  destruct H1 as [H1| ->]; eauto using lexlt_trans.
Qed.

Lemma ltb_leb x y : SFltb x y = true -> SFleb x y = true.
Proof.
  intros (a & b & Ha & Hb & H)%ltb_key. apply leb_key. eauto 6.
Qed.

Lemma leb_not_gtb x y : SFleb x y = true -> SFltb y x = false.
Proof.
  intros (a & b & Ha & Hb & H)%leb_key.
  destruct (SFltb y x) eqn:E; auto.
  apply ltb_key in E as (b' & a' & Hb' & Ha' & H').
  assert (a' = a) by congruence. assert (b' = b) by congruence. subst.
  exfalso. destruct H as [H| ->].
  - eapply lexlt_irrefl, lexlt_trans; eauto.
  - eapply lexlt_irrefl; eauto.
Qed.


(** ** The argmax branch ([top_p == 0]) *)

Lemma one_hot_from_lookup start n pos (k : nat) :
  (k < n)%nat ->
  one_hot_from start n pos !! k
  = Some (if start + Z.of_nat k =? pos then F32.one else F32.zero).
Proof.
  revert start k. induction n as [|n IH]; intros start k Hk; [lia|].
  destruct k as [|k]; simpl.
  - now rewrite Z.add_0_r.
  - rewrite IH by lia.
    now replace (start + 1 + Z.of_nat k) with (start + Z.of_nat (S k)) by lia.
Qed.

Lemma one_hot_from_none start n pos :
  pos < start -> one_hot_from start n pos = replicate n F32.zero.
Proof.
  revert start. induction n as [|n IH]; intros start H; simpl; [reflexivity|].
  rewrite IH by lia. destruct (Z.eqb_spec start pos); [lia | reflexivity].
Qed.

Lemma argmax_inv_step pre x m pos :
  argmax_inv pre m pos ->
  argmax_inv (pre ++ [x])
    (if F32.gtb x m then x else m)
    (if F32.gtb x m then Z.of_nat (length pre) else pos).
Proof.
  intros [Hn H0 Hu Hp]. destruct (F32.gtb x m) eqn:E.
  - unfold F32.gtb in E. pose proof (ltb_not_nan _ _ E) as [_ Hx].
    assert (Hlow : forall y, y ∈ pre -> is_nan y = false -> SFltb y x = true).
    { intros y Hy Hny. eapply leb_ltb_trans; [|exact E].
      apply not_gtb_leb; auto. }
    split.
    + exact Hx.
    + apply ltb_leb. eapply leb_ltb_trans; eauto.
    + intros y [Hy| ->%list_elem_of_singleton]%elem_of_app; unfold F32.gtb.
      * destruct (is_nan y) eqn:Hny.
        { destruct y; try discriminate. now destruct x. }
        apply leb_not_gtb, ltb_leb, Hlow; auto.
      * apply leb_not_gtb, leb_key.
        destruct (fkey x) as [a|] eqn:Ea; [eauto 6|].
        apply fkey_nan in Ea. congruence.
    + right. repeat split.
      * lia.
      * rewrite Nat2Z.id. apply list_lookup_middle. reflexivity.
      * unfold F32.gtb. eapply leb_ltb_trans; eauto.
      * intros j y Hj Hy. rewrite lookup_app_l in Hy by lia.
        destruct (is_nan y) eqn:Hny; auto. left. unfold F32.gtb.
        apply Hlow; auto. eapply list_elem_of_lookup_2; eauto.
  - split; [exact Hn | exact H0 | |].
    + intros y [Hy| ->%list_elem_of_singleton]%elem_of_app; auto.
    + destruct Hp as [Hp|(Hp1 & Hp2 & Hp3 & Hp4)]; [left; auto|right].
      assert (Z.to_nat pos < length pre)%nat by (eapply lookup_lt_Some; eauto).
      repeat split; auto.
      * rewrite lookup_app_l; auto.
      * intros j y Hj Hy. rewrite lookup_app_l in Hy by lia. eauto.
Qed.

Lemma argmax_loop_inv l : forall pre m pos,
  argmax_inv pre m pos ->
  argmax_inv (pre ++ l)
    (fst (argmax_loop l (Z.of_nat (length pre)) m pos))
    (snd (argmax_loop l (Z.of_nat (length pre)) m pos)).
Proof.
  induction l as [|x l IH]; intros pre m pos H; simpl.
  - now rewrite app_nil_r.
  - pose proof (argmax_inv_step pre x m pos H) as Hs.
    apply IH in Hs. rewrite length_app in Hs. simpl in Hs.
    replace (Z.of_nat (length pre + 1)) with (Z.of_nat (length pre) + 1) in Hs by lia.
    rewrite <- app_assoc in Hs. simpl in Hs.
    destruct (F32.gtb x m); exact Hs.
Qed.

Lemma argmax_inv_init : argmax_inv [] F32.zero (-1).
Proof.
  split; auto.
  intros y Hy. inversion Hy.
Qed.

Lemma argmax_row_inv row :
  argmax_inv row (fst (argmax_loop row 0 F32.zero (-1))) (argmax_pos_of row).
Proof. exact (argmax_loop_inv row [] F32.zero (-1) argmax_inv_init). Qed.

Lemma leb_zero_not_gtb x : F32.leb x F32.zero = true -> F32.gtb x F32.zero = false.
Proof. apply leb_not_gtb. Qed.

Lemma argmax_loop_nonpositive l : forall i,
  Forall (fun x => F32.leb x F32.zero = true) l ->
  argmax_loop l i F32.zero (-1) = (F32.zero, -1).
Proof.
  induction l as [|x l IH]; intros i H; simpl; [reflexivity|].
  inversion H as [|? ? Hx Hl]; subst.
  rewrite (leb_zero_not_gtb x Hx). auto.
Qed.

Section TopPZero.
Variable sort : list (F32.t * Z) -> list (F32.t * Z).

(** C10: on a row whose entries are all [<= 0] the argmax branch returns
    token id [-1] (no vocabulary index is negative) with probability 1.0,
    and the realized distribution is written as all zeros. *)
Theorem C10_nonpositive_row_returns_minus_one (p_prob : list F32.t) (top_p u : F64.t) :
  F64.eqb top_p F64.zero = true ->
  Forall (fun x => F32.leb x F32.zero = true) p_prob ->
  SampleTopPFromProb_row sort p_prob top_p u
  = (Ok (F32.one, -1), replicate (length p_prob) F32.zero)
  /\ ~ (0 <= -1 < Z.of_nat (length p_prob)).
Proof.
  intros Htop Hall. unfold SampleTopPFromProb_row. rewrite Htop.
  unfold argmax_pos_of. rewrite (argmax_loop_nonpositive p_prob 0 Hall). simpl.
  unfold one_hot. rewrite one_hot_from_none by lia.
  split; [reflexivity | lia].
Qed.

(** C6 (amended): when the row has an entry above 0, the argmax branch
    returns probability 1.0 and the index of the first maximum of the row:
    no entry exceeds the entry at that index and every earlier entry is
    strictly below it (or NaN); the realized distribution is one-hot at
    that index. *)
Theorem C6_argmax_of_positive_row (p_prob : list F32.t) (top_p u : F64.t) :
  F64.eqb top_p F64.zero = true ->
  Exists (fun x => F32.gtb x F32.zero = true) p_prob ->
  exists (i : nat) (x : F32.t),
    SampleTopPFromProb_row sort p_prob top_p u
    = (Ok (F32.one, Z.of_nat i), one_hot (length p_prob) (Z.of_nat i))
    /\ p_prob !! i = Some x
    /\ (forall y, y ∈ p_prob -> F32.gtb y x = false)
    /\ (forall (j : nat) y, (j < i)%nat -> p_prob !! j = Some y ->
                            F32.gtb x y = true \/ is_nan y = true)
    /\ (forall k : nat, (k < length p_prob)%nat ->
          one_hot (length p_prob) (Z.of_nat i) !! k
          = Some (if Nat.eqb k i then F32.one else F32.zero)).
Proof.
  intros Htop Hex. unfold SampleTopPFromProb_row. rewrite Htop.
  destruct (argmax_row_inv p_prob) as [Hn H0 Hu Hp].
  set (m := fst (argmax_loop p_prob 0 F32.zero (-1))) in *.
  destruct Hp as [[_ Hm]|(Hp1 & Hp2 & Hp3 & Hp4)].
  - exfalso. apply Exists_exists in Hex as (y & Hy & Hgt).
    rewrite Hm in Hu. rewrite (Hu y Hy) in Hgt. discriminate.
  - exists (Z.to_nat (argmax_pos_of p_prob)), m.
    rewrite Z2Nat.id by lia. repeat split; auto.
    + intros j y Hj Hy. apply (Hp4 j y); auto. lia.
    + intros k Hk. unfold one_hot. rewrite one_hot_from_lookup by lia.
      f_equal.
      destruct (Nat.eqb_spec k (Z.to_nat (argmax_pos_of p_prob))),
               (Z.eqb_spec (0 + Z.of_nat k) (argmax_pos_of p_prob)); auto; lia.
Qed.
End TopPZero.

(** ** The filter loop *)

Lemma kept_elem cuttoff l : forall i x idx,
  (x, idx) ∈ kept cuttoff l i <->
  exists j : nat, l !! j = Some x /\ idx = cast_int (i + Z.of_nat j) /\ F32.geb x cuttoff = true.
Proof.
  induction l as [|y l IH]; intros i x idx; simpl.
  - split; [intros H; inversion H | intros (j & H & _); discriminate].
  - assert (Hshift :
      (exists j : nat, l !! j = Some x /\ idx = cast_int (i + 1 + Z.of_nat j)
                       /\ F32.geb x cuttoff = true) ->
      exists j : nat, (y :: l) !! j = Some x /\ idx = cast_int (i + Z.of_nat j)
                      /\ F32.geb x cuttoff = true).
    { intros (j & H1 & H2 & H3). exists (S j). repeat split; auto.
      rewrite H2. f_equal. lia. }
    assert (Hback : forall j : nat,
      (y :: l) !! S j = Some x -> idx = cast_int (i + Z.of_nat (S j)) ->
      F32.geb x cuttoff = true ->
      exists j : nat, l !! j = Some x /\ idx = cast_int (i + 1 + Z.of_nat j)
                      /\ F32.geb x cuttoff = true).
    { intros j H1 H2 H3. exists j. repeat split; auto. rewrite H2. f_equal. lia. }
    destruct (F32.geb y cuttoff) eqn:E.
    + rewrite elem_of_cons, IH. split.
      * intros [[= -> ->]|H]; auto.
        exists 0%nat. repeat split; auto. f_equal. lia.
      * intros ([|j] & H1 & H2 & H3); [left|right; eauto].
        simpl in H1. injection H1 as ->. rewrite H2. do 2 f_equal. lia.
    + rewrite IH. split; auto.
      intros ([|j] & H1 & H2 & H3); eauto.
      simpl in H1. injection H1 as ->. congruence.
Qed.

(** The filter loop scans a prefix of [k] entries and keeps those at or
    above the cutoff; it stops early exactly at the first collected entry
    that takes the running sum above [1 - cuttoff]. *)
Lemma filter_loop_scan cuttoff l : forall i s,
  exists k : nat,
    (k <= length l)%nat /\
    filter_loop cuttoff l i s = kept cuttoff (take k l) i /\
    ((k < length l)%nat -> exceeds cuttoff s (filter_loop cuttoff l i s) = true) /\
    (forall pre, pre `prefix_of` filter_loop cuttoff l i s ->
                 pre <> [] -> pre <> filter_loop cuttoff l i s ->
                 exceeds cuttoff s pre = false).
Proof.
  induction l as [|x l IH]; intros i s; simpl.
  - exists 0%nat. split; [lia|]. split; [reflexivity|]. split; [lia|].
    intros pre Hp Hne. apply prefix_nil_inv in Hp. contradiction.
  - destruct (F32.geb x cuttoff) eqn:E.
    + destruct (F32.gtb (F32.add s x) (F32.sub F32.one cuttoff)) eqn:G.
      * exists 1%nat. simpl. rewrite E.
        split; [lia|]. split; [destruct l; reflexivity|].
        split; [intros _; unfold exceeds, running_sum; simpl; exact G|].
        intros pre [k Hk] Hne Hneq. destruct pre as [|a pre]; [contradiction|].
        exfalso. apply Hneq. simpl in Hk. injection Hk as <- Hk.
        destruct pre; [reflexivity | discriminate].
      * destruct (IH (i + 1) (F32.add s x)) as (k & Hk & Heq & Hstop & Hpre).
        exists (S k). simpl. rewrite E. repeat split.
        -- lia.
        -- now rewrite Heq.
        -- intros Hlt. unfold exceeds, running_sum. simpl. apply Hstop. lia.
        -- intros pre [r Hr] Hne Hneq. destruct pre as [|a pre]; [contradiction|].
           simpl in Hr. injection Hr as <- Hr.
           destruct pre as [|b pre].
           ++ unfold exceeds, running_sum. simpl. exact G.
           ++ unfold exceeds, running_sum. simpl.
              apply (Hpre (b :: pre)).
              ** exists r. exact Hr.
              ** discriminate.
              ** intros Hc. apply Hneq. now rewrite Hc.
    + destruct (IH (i + 1) s) as (k & Hk & Heq & Hstop & Hpre).
      exists (S k). simpl. rewrite E.
      split; [lia|]. split; [exact Heq|]. split; [|exact Hpre].
      intros Hlt. apply Hstop. lia.
Qed.


(** ** One pass of [sample_top_p_with_filter] *)

Lemma cast_int_id i : 0 <= i < 2^31 -> cast_int i = i.
Proof.
  intros H. unfold cast_int. rewrite Z.mod_small by lia. lia.
Qed.


Lemma cum_loop_indices top_p data : forall c t,
  (cum_loop top_p data c t).1.1.*2 = data.*2.
Proof.
  induction data as [|[prob idx] tl IH]; intros c t; simpl; [reflexivity|].
  destruct (F64.ltb (f64_of_f32 c) top_p); [|reflexivity].
  specialize (IH (F32.add c prob) (F32.add t prob)).
  destruct (cum_loop top_p tl (F32.add c prob) (F32.add t prob)) as [[tl' c'] t'].
  cbn in *. now f_equal.
Qed.

Lemma pick_loop_inl u tps data : forall lastc r,
  pick_loop u tps data lastc = inl r -> r.2 ∈ data.*2.
Proof.
  induction data as [|[first second] tl IH]; intros lastc r; simpl; [discriminate|].
  destruct (F64.ltb u (f64_of_f32 (F32.div first tps))).
  - intros [= <-]. simpl. apply elem_of_cons. now left.
  - intros H. apply elem_of_cons. right. eauto.
Qed.

Lemma last_default {A} (l : list A) d d' : l <> [] -> List.last l d = List.last l d'.
Proof.
  induction l as [|a l IH]; intros H; [contradiction|].
  destruct l as [|b l]; [reflexivity|]. apply IH. discriminate.
Qed.


Lemma last_snd {A B} (l : list (A * B)) d : (List.last l d).2 = List.last (l.*2) d.2.
Proof.
  induction l as [|a l IH]; [reflexivity|].
  destruct l; [reflexivity|]. exact IH.
Qed.


Lemma last_elem {A} (l : list A) d : l <> [] -> List.last l d ∈ l.
Proof.
  induction l as [|a l IH]; intros H; [contradiction|].
  destruct l as [|b l].
  - simpl. apply elem_of_cons. now left.
  - apply elem_of_cons. right. apply IH. discriminate.
Qed.

Section Pass.
Variable sort : list (F32.t * Z) -> list (F32.t * Z).
Hypothesis sort_perm : forall l, Permutation (sort l) l.

Lemma sort_nil_inv l : sort l = [] -> l = [].
Proof.
  intros E. pose proof (Permutation_length (sort_perm l)) as P.
  rewrite E in P. destruct l; [reflexivity | discriminate].
Qed.

Lemma sort_nil : sort [] = [].
Proof.
  pose proof (Permutation_length (sort_perm [])) as P.
  destruct (sort []); [reflexivity | discriminate].
Qed.

Lemma sorted_candidates_elem cuttoff p_prob d :
  d ∈ sorted_candidates sort cuttoff p_prob <-> d ∈ filter_loop cuttoff p_prob 0 F32.zero.
Proof. unfold sorted_candidates. now rewrite sort_perm. Qed.

(** the value of a pass in terms of its sorted candidates *)
Lemma pass_unfold p_prob top_p u cuttoff :
  sample_top_p_with_filter sort p_prob top_p u cuttoff =
  match sorted_candidates sort cuttoff p_prob with
  | [] => no_selection
  | data0 :: rest =>
      if fast_exit top_p u (data0 :: rest) then data0
      else if insufficient top_p cuttoff (data0 :: rest) then no_selection
      else
        let r := cum_loop top_p (data0 :: rest) F32.zero F32.zero in
        match pick_loop u r.2 r.1.1 F32.zero with
        | inl x => x
        | inr lastc => let back := List.last r.1.1 data0 in (F32.sub back.1 lastc, back.2)
        end
  end.
Proof.
  unfold sample_top_p_with_filter, sorted_candidates, insufficient.
  destruct (filter_loop cuttoff p_prob 0 F32.zero) as [|d ds] eqn:E.
  - now rewrite sort_nil.
  - destruct (sort (d :: ds)) as [|data0 rest] eqn:Es.
    + apply sort_nil_inv in Es. discriminate.
    + cbn [hd fast_exit]. destruct data0 as [f0 s0]. cbn [fst snd].
      destruct (F64.ltb u (F64.div (f64_of_f32 f0) top_p)); [reflexivity|].
      destruct (cum_loop top_p ((f0, s0) :: rest) F32.zero F32.zero) as [[data' c] t] eqn:Ec.
      cbn [fst snd].
      destruct (F64.ltb (f64_of_f32 c) top_p && negb (F32.eqb cuttoff F32.zero));
        [reflexivity|].
      destruct (pick_loop u t data' F32.zero); [reflexivity|].
      assert (data' <> []).
      { intros ->. pose proof (cum_loop_indices top_p ((f0, s0) :: rest) F32.zero F32.zero) as H.
        rewrite Ec in H. discriminate. }
      now rewrite (last_default data' d (f0, s0)).
Qed.


End Pass.

(** ** The nucleus branch ([0 < top_p < one]) *)


Section Nucleus.
Variable sort : list (F32.t * Z) -> list (F32.t * Z).
Hypothesis sort_perm : forall l, Permutation (sort l) l.



Hypothesis sort_desc : forall l, StronglySorted (fun a b => fcmp b a = false) (sort l).


End Nucleus.

(** ** The host buffer cache *)

Lemma grow_loop_doubles fuel : forall init_size num_tokens,
  0 < init_size -> num_tokens <= 2^62 ->
  2^62 < init_size * 2^(Z.of_nat fuel) ->
  exists j, 0 <= j /\
    grow_loop fuel init_size num_tokens = Ok (init_size * 2^j) /\
    num_tokens <= init_size * 2^j /\
    (j = 0 \/ init_size * 2^(j - 1) < num_tokens).
Proof.
  induction fuel as [|fuel IH]; intros init n Hpos Hn Hfuel.
  - cbn [grow_loop]. change (2 ^ Z.of_nat 0) with 1 in Hfuel.
    exists 0. rewrite Z.pow_0_r, Z.mul_1_r.
    destruct (Z.ltb_spec init n); [lia|].
    repeat split; auto; lia.
  - cbn [grow_loop]. destruct (Z.ltb_spec init n).
    + assert (2 * init <= int64_max) as Hle by (unfold int64_max; lia).
      destruct (Z.leb_spec (2 * init) int64_max); [|lia].
      destruct (IH (2 * init) n) as (j & Hj & Heq & Hcov & Hmin); try lia.
      { rewrite Nat2Z.inj_succ, Z.pow_succ_r in Hfuel by lia. lia. }
      exists (j + 1). rewrite Heq.
      assert (Hp : init * 2 ^ (j + 1) = 2 * init * 2 ^ j)
        by (rewrite Z.pow_add_r by lia; lia).
      rewrite Hp.
      split; [lia|]. split; [reflexivity|]. split; [lia|].
      right. replace (j + 1 - 1) with j by lia.
      destruct Hmin as [->|Hmin]; [rewrite Z.pow_0_r; lia|].
      destruct (Z.eq_dec j 0) as [->|Hj0]; [rewrite Z.pow_0_r; lia|].
      assert (Hq : 2 ^ j = 2 * 2 ^ (j - 1))
        by (rewrite <- Z.pow_succ_r by lia; f_equal; lia).
      rewrite Hq. lia.
    + exists 0. rewrite Z.pow_0_r, Z.mul_1_r. repeat split; auto; lia.
Qed.

Lemma CopyProbsToCPU_ok (probs_host_ : option HostBuffer) (a : NDArray) :
  device_type a <> kDLCPU ->
  match probs_host_ with
  | Some h => hb_shape1 h = shape1 a /\ 0 < hb_shape0 h
  | None => True
  end ->
  shape0 a <= 2^62 ->
  exists j, 0 <= j /\
    CopyProbsToCPU probs_host_ a
    = Ok ({| device_type := kDLCPU; shape1 := shape1 a; rows := rows a |},
          Some {| hb_shape0 := capacity probs_host_ * 2^j; hb_shape1 := shape1 a |}) /\
    shape0 a <= capacity probs_host_ * 2^j /\
    (j = 0 \/ capacity probs_host_ * 2^(j - 1) < shape0 a).
Proof.
  intros Hdev Hcache Hrows. unfold CopyProbsToCPU.
  assert (device_eqb (device_type a) kDLCPU = false) as ->
    by (destruct (device_type a); simpl; congruence).
  cbn [negb check obind].
  assert (0 < capacity probs_host_) as Hcap
    by (destruct probs_host_ as [h|]; simpl; lia).
  destruct (grow_loop_doubles 64 (capacity probs_host_) (shape0 a) Hcap Hrows)
    as (j & Hj & Heq & Hcov & Hmin).
  { change (2 ^ Z.of_nat 64) with (4 * 2^62). lia. }
  exists j. split; [exact Hj|]. split; [|split; assumption].
  destruct probs_host_ as [h|]; cbn [capacity] in *.
  - destruct Hcache as [Hw Hh]. rewrite Hw, Z.eqb_refl. cbn [check obind].
    rewrite Heq. cbn [obind].
    destruct (Z.eqb_spec (hb_shape0 h * 2 ^ j) (hb_shape0 h)) as [E|E]; cbn [negb].
    + rewrite E in *. destruct (Z.leb_spec (shape0 a) (hb_shape0 h)); [|lia].
      cbn [check obind]. destruct h as [h0 h1]; simpl in *. now subst.
    + cbn [hb_shape0]. destruct (Z.leb_spec (shape0 a) (hb_shape0 h * 2 ^ j)); [|lia].
      reflexivity.
  - cbn [obind]. rewrite Heq. cbn [obind hb_shape0].
    destruct (Z.leb_spec (shape0 a) (32 * 2 ^ j)); [|lia]. reflexivity.
Qed.

Lemma CopyProbsToCPU_on_host (probs_host_ : option HostBuffer) (a : NDArray) :
  device_type a = kDLCPU -> CopyProbsToCPU probs_host_ a = CheckFailed.
Proof. intros H. unfold CopyProbsToCPU. now rewrite H. Qed.

Lemma CopyProbsToCPU_width_change (h : HostBuffer) (a : NDArray) :
  hb_shape1 h <> shape1 a -> CopyProbsToCPU (Some h) a = CheckFailed.
Proof.
  intros H. unfold CopyProbsToCPU.
  destruct (negb (device_eqb (device_type a) kDLCPU)); [|reflexivity].
  cbn [check obind]. destruct (Z.eqb_spec (hb_shape1 h) (shape1 a)); [contradiction|].
  reflexivity.
Qed.

Lemma copy_calls_capacity w calls : forall probs_host_ k0,
  Forall (call_ok w) calls ->
  0 <= k0 ->
  match probs_host_ with
  | Some h => h = {| hb_shape0 := 32 * 2^k0; hb_shape1 := w |}
  | None => k0 = 0
  end ->
  (probs_host_ = None -> calls <> []) ->
  exists k, k0 <= k /\
    copy_calls probs_host_ calls = Ok (Some {| hb_shape0 := 32 * 2^k; hb_shape1 := w |}) /\
    Forall (fun a => shape0 a <= 32 * 2^k) calls /\
    (k = k0 \/ Exists (fun a => 32 * 2^(k - 1) < shape0 a) calls).
Proof.
  induction calls as [|a calls IH]; intros st k0 Hall Hk0 Hst Hne.
  - destruct st as [h|]; [|exfalso; now apply Hne].
    exists k0. subst h. repeat split; auto; lia.
  - inversion Hall as [|? ? (Hdev & Hw & Hrows) Hall']; subst.
    assert (Hcap : capacity st = 32 * 2^k0).
    { destruct st as [h|]; simpl; [now subst h | subst k0; reflexivity]. }
    destruct (CopyProbsToCPU_ok st a Hdev) as (j & Hj & Heq & Hcov & Hmin); auto.
    { destruct st as [h|]; [|exact I]. subst h. simpl. split; [reflexivity|lia]. }
    rewrite Hcap in *.
    assert (Hpow : 32 * 2 ^ k0 * 2 ^ j = 32 * 2 ^ (k0 + j))
      by (rewrite Z.pow_add_r by lia; lia).
    rewrite Hpow in *.
    destruct (IH (Some {| hb_shape0 := 32 * 2 ^ (k0 + j); hb_shape1 := shape1 a |}) (k0 + j))
      as (k & Hk & Hrun & Hfit & Hgrow); auto; try lia; try discriminate.
    exists k. cbn [copy_calls]. rewrite Heq. cbn [obind snd].
    split; [lia|]. split; [exact Hrun|]. split.
    + constructor; [|exact Hfit].
      assert (2 ^ (k0 + j) <= 2 ^ k) by (apply Z.pow_le_mono_r; lia). lia.
    + destruct Hgrow as [->|Hgrow]; [|right; now apply Exists_cons_tl].
      destruct (Z.eq_dec j 0) as [->|Hj0]; [left; lia|].
      destruct Hmin as [->|Hmin]; [left; lia|right].
      apply Exists_cons_hd.
      replace (k0 + j - 1) with (k0 + (j - 1)) by lia.
      rewrite Z.pow_add_r by lia. lia.
Qed.

(** C3 (amended): on calls with one vocab width (accelerator-resident inputs
    of at most [2^62] rows) the row capacity starts at 32, is multiplied by
    a power of two at each call, the least one that covers the requested
    rows, and never decreases, so after every run of calls it is [32 * 2^k]
    for the least [k] that covers the largest batch seen.  A call whose
    vocab width differs from the cached one fails the width check: nothing
    is rebuilt. *)
Theorem C3_capacity_doubles_from_32_and_width_change_fails :
  (forall w calls,
      Forall (call_ok w) calls -> calls <> [] ->
      exists k, 0 <= k /\
        copy_calls None calls = Ok (Some {| hb_shape0 := 32 * 2^k; hb_shape1 := w |}) /\
        Forall (fun a => shape0 a <= 32 * 2^k) calls /\
        (k = 0 \/ Exists (fun a => 32 * 2^(k - 1) < shape0 a) calls))
  /\ (forall h a,
        device_type a <> kDLCPU -> hb_shape1 h = shape1 a -> 0 < hb_shape0 h ->
        shape0 a <= 2^62 ->
        exists j view, 0 <= j /\
          CopyProbsToCPU (Some h) a
          = Ok (view, Some {| hb_shape0 := hb_shape0 h * 2^j; hb_shape1 := hb_shape1 h |}) /\
          rows view = rows a /\
          hb_shape0 h <= hb_shape0 h * 2^j /\
          shape0 a <= hb_shape0 h * 2^j /\
          (j = 0 \/ hb_shape0 h * 2^(j - 1) < shape0 a))
  /\ (forall h a, hb_shape1 h <> shape1 a -> CopyProbsToCPU (Some h) a = CheckFailed).
Proof.
  split; [|split].
  - intros w calls Hall Hne.
    destruct (copy_calls_capacity w calls None 0 Hall) as (k & Hk & H); auto; try lia.
    exists k. split; [lia | exact H].
  - intros h a Hdev Hw Hpos Hrows.
    destruct (CopyProbsToCPU_ok (Some h) a Hdev) as (j & Hj & Heq & Hcov & Hmin); auto.
    cbn [capacity] in *. rewrite <- Hw in Heq.
    exists j, {| device_type := kDLCPU; shape1 := hb_shape1 h; rows := rows a |}.
    split; [exact Hj|]. split; [exact Heq|]. split; [reflexivity|].
    split; [|split; assumption].
    assert (0 < 2 ^ j) by (apply Z.pow_pos_nonneg; lia). nia.
  - apply CopyProbsToCPU_width_change.
Qed.

(** ** The residual distribution: arithmetic facts *)

Lemma digits2_pos_bounds (m : positive) :
  2 ^ (Zpos (digits2_pos m) - 1) <= Zpos m < 2 ^ Zpos (digits2_pos m).
Proof.
  induction m as [m IH|m IH|]; cbn [digits2_pos].
  - rewrite Pos2Z.inj_succ. replace (Z.succ (Zpos (digits2_pos m)) - 1)
      with (Z.succ (Zpos (digits2_pos m) - 1)) by lia.
    rewrite !Z.pow_succ_r by lia. lia.
  - rewrite Pos2Z.inj_succ. replace (Z.succ (Zpos (digits2_pos m)) - 1)
      with (Z.succ (Zpos (digits2_pos m) - 1)) by lia.
    rewrite !Z.pow_succ_r by lia. lia.
  - simpl. lia.
Qed.

Lemma iter_xO (m d : positive) : Zpos (Pos.iter xO m d) = Zpos m * 2 ^ Zpos d.
Proof.
  induction d as [|d IH] using Pos.peano_ind.
  - simpl. lia.
  - rewrite Pos.iter_succ, Pos2Z.inj_xO, IH, Pos2Z.inj_succ, Z.pow_succ_r by lia. lia.
Qed.

(** two canonical mantissas of the same format: the smaller exponent is
    the smaller number once both are aligned *)
Lemma canonical_lt m1 e1 m2 e2 :
  canonical_mantissa F32.prec F32.emax m1 e1 = true ->
  canonical_mantissa F32.prec F32.emax m2 e2 = true ->
  e1 < e2 ->
  Zpos (shl_align m1 e1 (Z.min e1 e2)).1 < Zpos (shl_align m2 e2 (Z.min e1 e2)).1.
Proof.
  unfold canonical_mantissa, fexp, emin. intros C1%Z.eqb_eq C2%Z.eqb_eq Hlt.
  rewrite Z.min_l by lia. unfold shl_align.
  rewrite Z.sub_diag. cbn [fst].
  destruct (e1 - e2) as [|d|d] eqn:Hd; try lia. cbn [fst].
  rewrite iter_xO.
  pose proof (digits2_pos_bounds m1) as [_ B1].
  pose proof (digits2_pos_bounds m2) as [B2 _].
  assert (Zpos (digits2_pos m1) <= F32.prec) by lia.
  assert (Zpos (digits2_pos m2) = F32.prec) by lia.
  assert (Zpos d = e2 - e1) as Hde by lia.
  assert (1 <= Zpos d) by lia.
  assert (2 ^ Zpos (digits2_pos m1) <= 2 ^ F32.prec) by (apply Z.pow_le_mono_r; lia).
  assert (2 ^ F32.prec = 2 ^ (F32.prec - 1) * 2 ^ 1) as Hp by reflexivity.
  assert (2 ^ 1 <= 2 ^ Zpos d) by (apply Z.pow_le_mono_r; lia).
  replace (Zpos (digits2_pos m2) - 1) with (F32.prec - 1) in B2 by lia.
  assert (0 < 2 ^ (F32.prec - 1)) by reflexivity.
  nia.
Qed.

Lemma shr_1_nonneg mrs : 0 <= shr_m mrs -> 0 <= shr_m (shr_1 mrs).
Proof.
  destruct mrs as [m r s]. simpl. intros H.
  destruct m as [|[p|p|]|p]; simpl; lia.
Qed.

Lemma iter_pos_shr_1_nonneg n : forall mrs,
  0 <= shr_m mrs -> 0 <= shr_m (SpecFloat.iter_pos shr_1 n mrs).
Proof.
  induction n as [n IH|n IH|]; intros mrs H; cbn [SpecFloat.iter_pos];
    auto using shr_1_nonneg.
Qed.

Lemma shr_fexp_nonneg m e l :
  0 <= m -> 0 <= shr_m (shr_fexp F32.prec F32.emax m e l).1.
Proof.
  intros H. unfold shr_fexp, shr.
  assert (0 <= shr_m (shr_record_of_loc m l)) by (destruct l as [|[]]; simpl; lia).
  destruct (fexp F32.prec F32.emax (Zdigits2 m + e) - e); cbn [fst]; auto.
  now apply iter_pos_shr_1_nonneg.
Qed.

Lemma binary_round_aux_neg mx ex lx :
  0 <= mx -> signed_or_zero (binary_round_aux F32.prec F32.emax true mx ex lx).
Proof.
  intros H. unfold binary_round_aux.
  pose proof (shr_fexp_nonneg mx ex lx H) as H1.
  destruct (shr_fexp F32.prec F32.emax mx ex lx) as [mrs' e'].
  cbn [fst] in H1.
  assert (0 <= round_nearest_even (shr_m mrs') (loc_of_shr_record mrs')) as H2.
  { unfold round_nearest_even. destruct (loc_of_shr_record mrs') as [|[]]; try lia.
    destruct (Z.even (shr_m mrs')); lia. }
  pose proof (shr_fexp_nonneg _ e' loc_Exact H2) as H3.
  destruct (shr_fexp F32.prec F32.emax _ e' loc_Exact) as [mrs'' e''].
  cbn [fst] in H3.
  destruct (shr_m mrs'') as [|p|p]; [exact I| |lia].
  destruct (e'' <=? F32.emax - F32.prec); exact I.
Qed.

Lemma binary_normalize_nonpos z e :
  z <= 0 -> signed_or_zero (binary_normalize F32.prec F32.emax z e false).
Proof.
  intros H. destruct z as [|p|p]; simpl; auto; [lia|].
  unfold binary_round. destruct (shl_align _ _ _) as [mz ez].
  apply binary_round_aux_neg. lia.
Qed.

Lemma max_signed_or_zero x :
  signed_or_zero x -> F32.is_zero (F32.max x F32.zero) = true.
Proof. destruct x as [[]|[]| |[] m e]; simpl; intros H; try contradiction; reflexivity. Qed.

(** where the draft probability is at least the target probability the
    residual entry [max(p - q, 0)] is a zero *)
Lemma residual_entry_zero (p q : F32.t) :
  valid_binary F32.prec F32.emax p = true ->
  valid_binary F32.prec F32.emax q = true ->
  finite p = true -> finite q = true ->
  F32.geb q p = true ->
  F32.is_zero (F32.max (F32.sub p q) F32.zero) = true.
Proof.
  intros Vp Vq Fp Fq Hge. apply max_signed_or_zero.
  unfold F32.geb, SFleb in Hge.
  destruct p as [s1| | |s1 m1 e1], q as [s2| | |s2 m2 e2]; try discriminate.
  - destruct s1, s2; exact I.
  - destruct s2; [discriminate|]. exact I.
  - destruct s1; [|discriminate]. exact I.
  - unfold F32.sub, SFsub. apply binary_normalize_nonpos.
    simpl in Vp, Vq. unfold bounded in Vp, Vq.
    apply andb_true_iff in Vp as [C1 _]. apply andb_true_iff in Vq as [C2 _].
    destruct s1, s2; cbn [cond_Zopp SFcompare] in *; try discriminate.
    + destruct (Z.compare_spec e1 e2) as [He|He|He]; try discriminate.
      * subst e2. rewrite Z.min_id. unfold shl_align. rewrite Z.sub_diag. cbn [fst].
        change (Pos.compare_cont Eq m1 m2) with (Pos.compare m1 m2) in Hge.
        destruct (Pos.compare_spec m1 m2); try discriminate; lia.
      * pose proof (canonical_lt m2 e2 m1 e1 C2 C1 He) as H.
        rewrite (Z.min_comm e1 e2). lia.
    + destruct (Z.compare_spec e1 e2) as [He|He|He]; try discriminate.
      * subst e2. rewrite Z.min_id. unfold shl_align. rewrite Z.sub_diag. cbn [fst].
        change (Pos.compare_cont Eq m1 m2) with (Pos.compare m1 m2) in Hge.
        destruct (Pos.compare_spec m1 m2); try discriminate; lia.
      * pose proof (canonical_lt m1 e1 m2 e2 C1 C2 He) as H. lia.
Qed.

(** a zero divided by a positive sum is a zero *)
Lemma normalized_zero (z : F32.t) (sum_v : F64.t) :
  F32.is_zero z = true -> F64.gtb sum_v F64.zero = true ->
  F32.is_zero (f32_of_f64 (F64.div (f64_of_f32 z) sum_v)) = true.
Proof.
  destruct z as [s| | |]; try discriminate. intros _.
  destruct sum_v as [[]|[]| |[] m e]; try discriminate; reflexivity.
Qed.

Lemma residual_row_lookup p_probs p_qdist (j : nat) p q :
  p_probs !! j = Some p -> p_qdist !! j = Some q ->
  residual_row p_probs p_qdist !! j
  = Some (f32_of_f64 (F64.div (f64_of_f32 (F32.max (F32.sub p q) F32.zero))
                        (sum_of (residual p_probs p_qdist)))).
Proof.
  intros Hp Hq. unfold residual_row, normalized.
  rewrite list_lookup_fmap. unfold residual.
  rewrite lookup_zip_with, Hp. simpl. rewrite Hq. reflexivity.
Qed.

(** ** Draft verification: one position *)

Section Verify.
Variable sort : list (F32.t * Z) -> list (F32.t * Z).
Variable generation_cfg : list GenerationConfig.
Variable draft_output_tokens : list (list Z).
Variable draft_output_token_prob : list (list F32.t).
Variable draft_output_prob_dist : list (list NDArray1).
Variable i : nat.
Variables verify_start cur_token_idx : Z.
Variable st : VerifyState.

Local Abbreviation reads :=
  (reads draft_output_tokens draft_output_token_prob i verify_start cur_token_idx st).
Local Abbreviation reject_reads :=
  (reject_reads generation_cfg draft_output_prob_dist i cur_token_idx st).

Local Abbreviation step :=
  (verify_position sort generation_cfg draft_output_tokens draft_output_token_prob
     draft_output_prob_dist i verify_start cur_token_idx st).

Local Abbreviation loop n idx s :=
  (verify_loop sort generation_cfg draft_output_tokens draft_output_token_prob
     draft_output_prob_dist i verify_start n idx s).

Lemma commit_and_record_eq m a c r s :
  request_mstates s !! i = Some m -> accepted_tokens s !! i = Some a ->
  commit_and_record i c r s = Ok (after_commit i m a c r (vs_probs s) (vs_rngs s) s).
Proof. intros Hm Ha. unfold commit_and_record. now rewrite Hm, Ha. Qed.

Lemma step_accept_deterministic p_probs cur_token q_value p_value m a :
  reads p_probs cur_token q_value p_value m a ->
  F32.geb p_value q_value = true ->
  step = Ok (after_commit i m a cur_token cur_token (vs_probs st) (vs_rngs st) st, true).
Proof.
  intros [Hrow (toks & Ht & Hc) (qs & Hqs & Hq) Hp Hm Ha] Hge.
  unfold verify_position.
  rewrite Hrow; cbn [obind]. rewrite Ht; cbn [of_option obind]. rewrite Hc; cbn [obind].
  rewrite Hqs; cbn [of_option obind]. rewrite Hq; cbn [obind]. rewrite Hp; cbn [obind].
  rewrite Hge. now rewrite (commit_and_record_eq m a).
Qed.

Lemma step_accept_random p_probs cur_token q_value p_value m a g :
  reads p_probs cur_token q_value p_value m a ->
  vs_rngs st !! i = Some g ->
  F32.geb p_value q_value = false ->
  F32.ltb (f32_of_f64 (draws g (cursor g))) (F32.div p_value (F32.add q_value eps_)) = true ->
  step = Ok (after_commit i m a cur_token cur_token (vs_probs st)
               (<[i := advance 1 g]> (vs_rngs st)) st, true).
Proof.
  intros [Hrow (toks & Ht & Hc) (qs & Hqs & Hq) Hp Hm Ha] Hg Hge Hr.
  unfold verify_position.
  rewrite Hrow; cbn [obind]. rewrite Ht; cbn [of_option obind]. rewrite Hc; cbn [obind].
  rewrite Hqs; cbn [of_option obind]. rewrite Hq; cbn [obind]. rewrite Hp; cbn [obind].
  rewrite Hge. unfold draw. rewrite Hg. cbn [of_option obind GetRandomNumber].
  rewrite Hr. unfold commit_and_record. cbn [request_mstates accepted_tokens].
  rewrite Hm, Ha. reflexivity.
Qed.

Lemma step_reject p_probs cur_token q_value p_value m a g q_dist cfg :
  reads p_probs cur_token q_value p_value m a ->
  reject_reads g q_dist cfg ->
  F32.geb p_value q_value = false ->
  F32.ltb (f32_of_f64 (draws g (cursor g))) (F32.div p_value (F32.add q_value eps_)) = false ->
  let probs := set_row (vs_probs st) (verify_start + cur_token_idx)
                 (residual_row p_probs (data1 q_dist)) in
  step =
  (sampled <-- SampleTopPFromProb sort probs (verify_start + cur_token_idx)
                 (resolved_top_p cfg) (draws g (S (cursor g))) ;;
   Ok (after_commit i m a (cast_int sampled.1.2) cur_token probs
         (<[i := advance 2 g]> (vs_rngs st)) st, false)).
Proof.
  intros [Hrow (toks & Ht & Hc) (qs & Hqs & Hq) Hp Hm Ha]
         [Hg (dists & Hds & Hd) Hdev Hw Hcfg] Hge Hr probs.
  assert (Hglen : (i < length (vs_rngs st))%nat) by (eapply lookup_lt_Some; eauto).
  unfold verify_position.
  rewrite Hrow; cbn [obind]. rewrite Ht; cbn [of_option obind]. rewrite Hc; cbn [obind].
  rewrite Hqs; cbn [of_option obind]. rewrite Hq; cbn [obind]. rewrite Hp; cbn [obind].
  rewrite Hge. unfold draw at 1. rewrite Hg. cbn [of_option obind GetRandomNumber].
  rewrite Hr. rewrite Hds; cbn [of_option obind]. rewrite Hd; cbn [obind].
  rewrite Hdev. cbn [device_eqb check obind].
  cbn [vs_probs]. rewrite Hw, Z.eqb_refl. cbn [check obind].
  rewrite Hcfg. cbn [of_option obind].
  unfold draw. cbn [vs_rngs]. rewrite list_lookup_insert_eq by assumption.
  cbn [of_option obind GetRandomNumber draws cursor vs_probs].
  fold probs.
  destruct (SampleTopPFromProb sort probs (verify_start + cur_token_idx)
              (resolved_top_p cfg) (draws g (S (cursor g)))) as [sampled| |];
    cbn [obind]; try reflexivity.
  unfold commit_and_record. cbn [request_mstates accepted_tokens vs_probs vs_rngs].
  rewrite Hm, Ha. cbn [of_option obind]. rewrite list_insert_insert_eq.
  reflexivity.
Qed.

Lemma loop_continue n s' :
  step = Ok (s', true) -> loop (S n) cur_token_idx st = loop n (cur_token_idx + 1) s'.
Proof. intros H. cbn [verify_loop]. now rewrite H. Qed.

Lemma loop_break n s' :
  step = Ok (s', false) -> loop (S n) cur_token_idx st = Ok s'.
Proof. intros H. cbn [verify_loop]. now rewrite H. Qed.

(** C5: at a position where the draft token is rejected (and the
    resampling succeeds) the resampled replacement token is appended to
    the committed tokens of the request, the rejected draft token id is
    appended to the accepted-tokens list, and this is the state the loop of
    the sequence returns. *)
Theorem C5_rejection_commits_replacement_records_draft
    p_probs cur_token q_value p_value m a g q_dist cfg sampled n :
  reads p_probs cur_token q_value p_value m a ->
  reject_reads g q_dist cfg ->
  F32.geb p_value q_value = false ->
  F32.ltb (f32_of_f64 (draws g (cursor g))) (F32.div p_value (F32.add q_value eps_)) = false ->
  let probs := set_row (vs_probs st) (verify_start + cur_token_idx)
                 (residual_row p_probs (data1 q_dist)) in
  SampleTopPFromProb sort probs (verify_start + cur_token_idx)
    (resolved_top_p cfg) (draws g (S (cursor g))) = Ok sampled ->
  let new_token := cast_int sampled.1.2 in
  exists st',
    loop (S n) cur_token_idx st = Ok st' /\
    request_mstates st' !! i = Some (m ++ [new_token]) /\
    accepted_tokens st' !! i = Some (a ++ [cur_token]) /\
    (forall k, k <> i -> request_mstates st' !! k = request_mstates st !! k) /\
    (forall k, k <> i -> accepted_tokens st' !! k = accepted_tokens st !! k).
Proof.
  intros Hreads Hrej Hge Hr probs Hs new_token.
  pose proof (step_reject _ _ _ _ _ _ _ _ _ Hreads Hrej Hge Hr) as Hstep.
  cbv zeta in Hstep. fold probs in Hstep. rewrite Hs in Hstep. cbn [obind] in Hstep.
  eexists. split; [apply loop_break; exact Hstep|].
  destruct Hreads as [_ _ _ _ Hm Ha].
  cbn [after_commit request_mstates accepted_tokens].
  split; [|split; [|split]].
  - apply list_lookup_insert_eq. eapply lookup_lt_Some; eauto.
  - apply list_lookup_insert_eq. eapply lookup_lt_Some; eauto.
  - intros k Hk. now apply list_lookup_insert_ne.
  - intros k Hk. now apply list_lookup_insert_ne.
Qed.

Lemma row_at_set_row probs k r0 r :
  row_at probs k = Ok r0 -> row_at (set_row probs k r) k = Ok r.
Proof.
  unfold row_at, at_index, set_row. cbn [rows].
  destruct (k <? 0); [discriminate|].
  destruct (rows probs !! Z.to_nat k) eqn:E; [|discriminate]. intros _.
  rewrite list_lookup_insert_eq; [reflexivity|]. eapply lookup_lt_Some; eauto.
Qed.

(** C1 (amended): the per-position protocol.  With target probability [p]
    and draft probability [q]: if [p >= q] the draft token is committed
    without a draw and the loop goes on; otherwise one uniform [r] is
    drawn and the draft token is committed, the loop going on, exactly when
    [r < p/(q+eps)]; else the row is replaced in place by the residual
    [max(p_row[j] - q_row[j], 0)] divided by its sum (a zero wherever the
    draft probability is at least the target one, the sum being positive),
    a replacement token is sampled from it with the second draw and the
    resolved top_p of the sequence (0 when temperature < eps, else the
    configured top_p), it is committed, and the loop of the sequence ends. *)
Theorem C1_per_position_protocol p_probs cur_token q_value p_value m a :
  reads p_probs cur_token q_value p_value m a ->
  (F32.geb p_value q_value = true ->
     let st' := after_commit i m a cur_token cur_token (vs_probs st) (vs_rngs st) st in
     step = Ok (st', true) /\
     forall n, loop (S n) cur_token_idx st = loop n (cur_token_idx + 1) st')
  /\
  (F32.geb p_value q_value = false ->
   forall g, vs_rngs st !! i = Some g ->
     let r := f32_of_f64 (draws g (cursor g)) in
     (F32.ltb r (F32.div p_value (F32.add q_value eps_)) = true ->
        let st' := after_commit i m a cur_token cur_token (vs_probs st)
                     (<[i := advance 1 g]> (vs_rngs st)) st in
        step = Ok (st', true) /\
        forall n, loop (S n) cur_token_idx st = loop n (cur_token_idx + 1) st')
     /\
     (F32.ltb r (F32.div p_value (F32.add q_value eps_)) = false ->
      forall q_dist cfg, reject_reads g q_dist cfg ->
        let row := residual_row p_probs (data1 q_dist) in
        let sum_v := sum_of (residual p_probs (data1 q_dist)) in
        let probs := set_row (vs_probs st) (verify_start + cur_token_idx) row in
        (forall n,
            loop (S n) cur_token_idx st
            = (sampled <-- SampleTopPFromProb sort probs (verify_start + cur_token_idx)
                             (resolved_top_p cfg) (draws g (S (cursor g))) ;;
               Ok (after_commit i m a (cast_int sampled.1.2) cur_token probs
                     (<[i := advance 2 g]> (vs_rngs st)) st)))
        /\ row_at probs (verify_start + cur_token_idx) = Ok row
        /\ (forall (j : nat) p q,
               p_probs !! j = Some p -> data1 q_dist !! j = Some q ->
               row !! j
               = Some (f32_of_f64
                         (F64.div (f64_of_f32 (F32.max (F32.sub p q) F32.zero)) sum_v)))
        /\ (forall (j : nat) p q,
               p_probs !! j = Some p -> data1 q_dist !! j = Some q ->
               valid_binary F32.prec F32.emax p = true ->
               valid_binary F32.prec F32.emax q = true ->
               finite p = true -> finite q = true ->
               F32.geb q p = true ->
               F64.gtb sum_v F64.zero = true ->
               exists z, row !! j = Some z /\ F32.is_zero z = true))).
Proof.
  intros Hreads. split.
  - intros Hge st'.
    pose proof (step_accept_deterministic _ _ _ _ _ _ Hreads Hge) as Hstep.
    split; [exact Hstep|]. intros n. now apply loop_continue.
  - intros Hge g Hg r. split.
    + intros Hr st'.
      pose proof (step_accept_random _ _ _ _ _ _ _ Hreads Hg Hge Hr) as Hstep.
      split; [exact Hstep|]. intros n. now apply loop_continue.
    + intros Hr q_dist cfg Hrej row sum_v probs.
      split; [|split; [|split]].
      * intros n.
        pose proof (step_reject _ _ _ _ _ _ _ _ _ Hreads Hrej Hge Hr) as Hstep.
        cbv zeta in Hstep. fold row probs in Hstep.
        cbn [verify_loop]. rewrite Hstep.
        destruct (SampleTopPFromProb sort probs (verify_start + cur_token_idx)
                    (resolved_top_p cfg) (draws g (S (cursor g)))); reflexivity.
      * destruct Hreads as [Hrow _ _ _ _ _]. eapply row_at_set_row; eauto.
      * intros j p q Hp Hq. now apply residual_row_lookup.
      * intros j p q Hp Hq Vp Vq Fp Fq Hqp Hsum.
        pose proof (residual_row_lookup _ _ j p q Hp Hq) as Hl.
        eexists. split; [exact Hl|].
        apply normalized_zero; [|exact Hsum].
        now apply residual_entry_zero.
Qed.
End Verify.

(** ** The parallel loops *)

Lemma parallel_for_two {S} (task : nat -> S -> outcome S) a b l st :
  parallel_for task (a :: b :: l) st
  = obind (obind (task a st) (task b)) (parallel_for task l).
Proof. cbn [parallel_for]. destruct (task a st); reflexivity. Qed.

(** Runs that commute pairwise can be scheduled in any order. *)
Lemma parallel_for_permutation {S} (task : nat -> S -> outcome S)
    (inv : S -> Prop) (dom : nat -> Prop) :
  (forall i st st', dom i -> inv st -> task i st = Ok st' -> inv st') ->
  (forall i j st, dom i -> dom j -> inv st ->
     obind (task i st) (task j) = obind (task j st) (task i)) ->
  forall l1 l2, Permutation l1 l2 -> Forall dom l1 ->
  forall st, inv st -> parallel_for task l1 st = parallel_for task l2 st.
Proof.
  intros Hinv Hcomm l1 l2 Hperm.
  induction Hperm as [|x l l' _ IH|x y l|l l' l'' H1 IH1 H2 IH2]; intros Hdom st Hst.
  - reflexivity.
  - inversion Hdom as [|? ? Hx Hl]; subst. cbn [parallel_for].
    destruct (task x st) as [st'| |] eqn:E; cbn [obind]; auto.
    apply IH; eauto.
  - inversion Hdom as [|? ? Hy Hl]; subst. inversion Hl as [|? ? Hx Hl']; subst.
    rewrite !parallel_for_two. now rewrite (Hcomm y x st).
  - rewrite IH1 by assumption. apply IH2; [|assumption].
    rewrite <- H1. exact Hdom.
Qed.

Lemma SampleTopPFromProb_row_defined sort p_prob top_p u :
  (SampleTopPFromProb_row sort p_prob top_p u).1 <> Undefined.
Proof.
  unfold SampleTopPFromProb_row.
  destruct (F64.eqb top_p F64.zero); [discriminate|].
  destruct (F64.geb top_p one); cbn [fst].
  - destruct (cdf_loop p_prob 0 F64.zero u); discriminate.
  - unfold nucleus, fallback.
    destruct (F64.ltb top_p (F64.of_Z 1)).
    + destruct (0 <=? _); [discriminate|].
      destruct (0 <=? _); discriminate.
    + destruct (0 <=? _); discriminate.
Qed.

Lemma write_slots_comm i j g1 r1 g2 r2 st :
  i <> j ->
  write_slots j g2 r2 (write_slots i g1 r1 st) = write_slots i g1 r1 (write_slots j g2 r2 st).
Proof.
  intros Hij. unfold write_slots. cbn [ss_rngs sampled_tokens output_prob_dist output_token_probs].
  f_equal.
  - now apply list_insert_insert_ne.
  - now apply list_insert_insert_ne.
  - destruct (output_prob_dist st); cbn; [f_equal|reflexivity].
    destruct r1.2, r2.2; try reflexivity. now apply list_insert_insert_ne.
  - destruct (output_token_probs st); cbn; [f_equal|reflexivity].
    now apply list_insert_insert_ne.
Qed.

Lemma length_one_hot_from start n pos : length (one_hot_from start n pos) = n.
Proof. revert start. induction n as [|n IH]; intros start; simpl; [reflexivity|]. now rewrite IH. Qed.

Lemma at_index_of_nat {A} (l : list A) (i : nat) : at_index l (Z.of_nat i) = of_option (l !! i).
Proof.
  unfold at_index. destruct (Z.ltb_spec (Z.of_nat i) 0); [lia|]. now rewrite Nat2Z.id.
Qed.

Lemma slot_of_write_slots_ne i j g r st :
  i <> j ->
  slot_of (output_prob_dist (write_slots i g r st)) j = slot_of (output_prob_dist st) j.
Proof.
  intros Hij. unfold write_slots, slot_of. cbn [output_prob_dist].
  destruct (output_prob_dist st) as [slots|]; cbn; [|reflexivity].
  destruct r.2; [|reflexivity]. now rewrite list_lookup_insert_ne.
Qed.

Section Schedule.
Variable sort : list (F32.t * Z) -> list (F32.t * Z).
Variable probs_host : NDArray.
Variable generation_cfg : list GenerationConfig.

Lemma sample_task_eq i st cfg g :
  generation_cfg !! i = Some cfg -> ss_rngs st !! i = Some g ->
  sample_task sort probs_host generation_cfg i st
  = (slot <-- slot_of (output_prob_dist st) i ;;
     r <-- sample_row sort probs_host i cfg g slot ;;
     Ok (write_slots i (advance 1 g) r st)).
Proof.
  intros Hc Hg. unfold sample_task, sample_row, slot_of, write_slots. rewrite Hc, Hg.
  cbn [of_option obind GetRandomNumber].
  destruct (output_prob_dist st) as [slots|]; cbn [obind fmap option_fmap option_map].
  - unfold SampleTopPFromProb_out, row_at. rewrite !at_index_of_nat, Nat2Z.id.
    destruct (slots !! i) as [slot|]; cbn [of_option obind];
      destruct (rows probs_host !! i) as [p_prob|]; cbn [of_option obind]; try reflexivity.
    destruct (SampleTopPFromProb_row_out _ _ _ _ _) as [[[prob token] tensor]| |];
      reflexivity.
  - unfold SampleTopPFromProb, row_at. rewrite at_index_of_nat.
    destruct (rows probs_host !! i) as [p_prob|]; cbn [of_option obind]; try reflexivity.
    destruct (SampleTopPFromProb_row _ _ _ _) as [[[prob token]| |] dist];
      reflexivity.
Qed.

(** a run on a row of the tensor has no defined behaviour exactly when it
    overruns the tensor of its slot *)
Lemma sample_row_undefined i cfg g slot p_prob :
  rows probs_host !! i = Some p_prob ->
  is_undefined (sample_row sort probs_host i cfg g slot)
  = overruns (resolved_top_p cfg) slot p_prob.
Proof.
  intros Hrow. unfold sample_row, row_at. rewrite at_index_of_nat, Hrow.
  cbn [of_option obind].
  pose proof (SampleTopPFromProb_row_defined sort p_prob (resolved_top_p cfg)
                (draws g (cursor g))) as Hd.
  destruct slot as [slot|]; cbn [overruns].
  2:{ destruct (SampleTopPFromProb_row _ _ _ _).1; cbn; congruence. }
  unfold SampleTopPFromProb_row_out, write_dist.
  unfold SampleTopPFromProb_row in *.
  destruct (F64.eqb (resolved_top_p cfg) F64.zero); cbn [andb].
  - unfold write_through_pointer, one_hot. rewrite length_one_hot_from.
    destruct slot as [t|]; cbn [overruns].
    + destruct (Nat.leb_spec (length p_prob) (length t)), (Nat.ltb_spec (length t) (length p_prob));
        try lia; reflexivity.
    + unfold Empty. rewrite length_replicate, Nat.leb_refl. reflexivity.
  - assert (Hres : forall (r : outcome (F32.t * Z)) (tensor : list F32.t),
               r <> Undefined ->
               is_undefined (r0 <-- (tensor0 <-- CopyFromBytes tensor p_prob ;;
                                     s <-- r ;; Ok (s, tensor0)) ;;
                             Ok (r0.1, Some r0.2)) = false).
    { intros r tensor Hr. unfold CopyFromBytes.
      destruct (length tensor =? length p_prob)%nat; cbn; [|reflexivity].
      destruct r; cbn; congruence. }
    destruct (F64.geb (resolved_top_p cfg) one); cbn [fst] in Hd;
      rewrite Hres by exact Hd; destruct slot; reflexivity.
Qed.

(** the tensor a run under [top_p == 0] leaves in its slot holds the row *)
Lemma sample_row_tensor i cfg g slot p_prob r :
  rows probs_host !! i = Some p_prob ->
  sample_row sort probs_host i cfg g (Some slot) = Ok r ->
  F64.eqb (resolved_top_p cfg) F64.zero = true ->
  exists t, r.2 = Some t /\ (length p_prob <= length t)%nat.
Proof.
  intros Hrow Hr Hz. unfold sample_row, row_at in Hr. rewrite at_index_of_nat, Hrow in Hr.
  cbn [of_option obind] in Hr.
  unfold SampleTopPFromProb_row_out, write_dist, SampleTopPFromProb_row in Hr.
  rewrite Hz in Hr. unfold write_through_pointer, one_hot in Hr.
  rewrite length_one_hot_from in Hr.
  destruct (length p_prob <=? _)%nat; cbn in Hr; [|discriminate].
  injection Hr as <-. cbn. eexists. split; [reflexivity|].
  rewrite length_app, length_one_hot_from. lia.
Qed.

Lemma slot_of_in_range st i :
  batch_inv probs_host generation_cfg st -> (i < length (rows probs_host))%nat ->
  exists slot, slot_of (output_prob_dist st) i = Ok slot.
Proof.
  intros [_ _ Hs _] Hi. unfold slot_of.
  destruct (output_prob_dist st) as [slots|]; [|eauto].
  destruct (lookup_lt_is_Some_2 slots i) as [slot ->]; [rewrite (Hs slots); auto|].
  cbn. eauto.
Qed.

Lemma sample_task_inv i st st' :
  in_range (length (rows probs_host)) i ->
  batch_inv probs_host generation_cfg st ->
  sample_task sort probs_host generation_cfg i st = Ok st' ->
  batch_inv probs_host generation_cfg st'.
Proof.
  intros Hi Hinv Ht. unfold in_range in Hi.
  pose proof Hinv as [Hr Hc Hs Hf].
  destruct (lookup_lt_is_Some_2 generation_cfg i) as [cfg Hcfg]; [lia|].
  destruct (lookup_lt_is_Some_2 (ss_rngs st) i) as [g Hg]; [lia|].
  destruct (lookup_lt_is_Some_2 (rows probs_host) i Hi) as [p_prob Hrow].
  destruct (slot_of_in_range st i Hinv Hi) as [slot Hslot].
  rewrite (sample_task_eq i st cfg g Hcfg Hg), Hslot in Ht. cbn [obind] in Ht.
  destruct (sample_row sort probs_host i cfg g slot) as [r| |] eqn:Er; try discriminate.
  cbn [obind] in Ht. injection Ht as <-.
  split; cbn [write_slots ss_rngs output_prob_dist].
  - now rewrite length_insert.
  - exact Hc.
  - intros slots Hsl. destruct (output_prob_dist st) as [slots0|]; [|discriminate].
    cbn in Hsl. injection Hsl as <-.
    destruct r.2; rewrite ?length_insert; auto.
  - intros j cfg' q slot' Hcfg' Hrow' Hslot'.
    destruct (Nat.eq_dec i j) as [<-|Hij].
    + assert (cfg' = cfg) by congruence. assert (q = p_prob) by congruence. subst.
      unfold slot_of in Hslot, Hslot'.
      destruct (output_prob_dist st) as [slots|] eqn:Eo; cbn in Hslot'.
      2:{ injection Hslot' as <-. reflexivity. }
      destruct (slots !! i) as [sl|] eqn:Esl; cbn in Hslot; [|discriminate].
      injection Hslot as <-.
      destruct (F64.eqb (resolved_top_p cfg) F64.zero) eqn:Hz.
      * destruct (sample_row_tensor i cfg g sl p_prob r Hrow Er Hz) as (t & Ht & Hlen).
        rewrite Ht in Hslot'.
        rewrite list_lookup_insert_eq in Hslot'
          by (eapply lookup_lt_Some; eauto).
        cbn in Hslot'. injection Hslot' as <-. cbn [overruns]. rewrite Hz. cbn.
        apply Nat.ltb_ge. exact Hlen.
      * destruct slot' as [[t|]|]; cbn [overruns]; try reflexivity. now rewrite Hz.
    + apply (Hf j cfg' q slot' Hcfg' Hrow').
      rewrite <- Hslot'. symmetry.
      apply (slot_of_write_slots_ne i j (advance 1 g) r st Hij).
Qed.

Lemma sample_task_commute i j st :
  batch_inv probs_host generation_cfg st ->
  in_range (length (rows probs_host)) i -> in_range (length (rows probs_host)) j ->
  obind (sample_task sort probs_host generation_cfg i st)
        (sample_task sort probs_host generation_cfg j)
  = obind (sample_task sort probs_host generation_cfg j st)
          (sample_task sort probs_host generation_cfg i).
Proof.
  intros Hinv Hi Hj. unfold in_range in *.
  pose proof Hinv as [Hr Hc Hs Hf].
  destruct (Nat.eq_dec i j) as [->|Hij]; [reflexivity|].
  destruct (lookup_lt_is_Some_2 generation_cfg i) as [ci Hci]; [lia|].
  destruct (lookup_lt_is_Some_2 generation_cfg j) as [cj Hcj]; [lia|].
  destruct (lookup_lt_is_Some_2 (ss_rngs st) i) as [gi Hgi]; [lia|].
  destruct (lookup_lt_is_Some_2 (ss_rngs st) j) as [gj Hgj]; [lia|].
  destruct (lookup_lt_is_Some_2 (rows probs_host) i Hi) as [pi Hpi].
  destruct (lookup_lt_is_Some_2 (rows probs_host) j Hj) as [pj Hpj].
  destruct (slot_of_in_range st i Hinv Hi) as [si Hsi].
  destruct (slot_of_in_range st j Hinv Hj) as [sj Hsj].
  rewrite (sample_task_eq i st ci gi Hci Hgi), (sample_task_eq j st cj gj Hcj Hgj).
  rewrite Hsi, Hsj. cbn [obind].
  pose proof (sample_row_undefined i ci gi si pi Hpi) as Di.
  pose proof (sample_row_undefined j cj gj sj pj Hpj) as Dj.
  rewrite (Hf i ci pi si Hci Hpi Hsi) in Di. rewrite (Hf j cj pj sj Hcj Hpj Hsj) in Dj.
  destruct (sample_row sort probs_host i ci gi si) as [ri| |] eqn:Ei; [| |discriminate];
    destruct (sample_row sort probs_host j cj gj sj) as [rj| |] eqn:Ej; try discriminate;
    cbn [obind].
  - rewrite (sample_task_eq j _ cj gj), (sample_task_eq i _ ci gi); auto;
      try (cbn [write_slots ss_rngs]; now rewrite list_lookup_insert_ne by congruence).
    rewrite (slot_of_write_slots_ne i j), (slot_of_write_slots_ne j i) by congruence.
    rewrite Hsi, Hsj. cbn [obind]. rewrite Ei, Ej. cbn [obind].
    f_equal. now apply write_slots_comm.
  - rewrite (sample_task_eq j _ cj gj); auto.
    + rewrite (slot_of_write_slots_ne i j) by congruence. rewrite Hsj. cbn [obind].
      now rewrite Ej.
    + cbn [write_slots ss_rngs]. now rewrite list_lookup_insert_ne by congruence.
  - rewrite (sample_task_eq i _ ci gi); auto.
    + rewrite (slot_of_write_slots_ne j i) by congruence. rewrite Hsi. cbn [obind].
      now rewrite Ei.
    + cbn [write_slots ss_rngs]. now rewrite list_lookup_insert_ne by congruence.
  - reflexivity.
Qed.

Lemma sample_tasks_any_order sched st :
  batch_inv probs_host generation_cfg st ->
  Permutation sched (seq 0 (length (rows probs_host))) ->
  parallel_for (sample_task sort probs_host generation_cfg) sched st
  = parallel_for (sample_task sort probs_host generation_cfg)
      (seq 0 (length (rows probs_host))) st.
Proof.
  intros Hinv Hperm.
  apply (parallel_for_permutation _ (batch_inv probs_host generation_cfg)
           (in_range (length (rows probs_host)))); auto.
  - intros i s s' Hi Hs Ht. exact (sample_task_inv i s s' Hi Hs Ht).
  - intros i j s Hi Hj Hs. now apply sample_task_commute.
  - rewrite Forall_forall. intros i Hin. rewrite Hperm in Hin.
    apply elem_of_seq in Hin. unfold in_range. lia.
Qed.

(** when every run is defined on the state the loop starts from, no slot
    is overrun *)
Lemma runs_defined_inv st :
  length (ss_rngs st) = length (rows probs_host) ->
  length generation_cfg = length (rows probs_host) ->
  (forall slots, output_prob_dist st = Some slots ->
                 length slots = length (rows probs_host)) ->
  runs_defined (sample_task sort probs_host generation_cfg)
    (seq 0 (length (rows probs_host))) st = Ok tt ->
  batch_inv probs_host generation_cfg st.
Proof.
  intros Hr Hc Hs Hdef. split; auto.
  intros i cfg p_prob slot Hcfg Hrow Hslot.
  unfold runs_defined in Hdef.
  destruct (forallb _ _) eqn:Hall; [|discriminate].
  rewrite forallb_forall in Hall.
  assert (Hi : (i < length (rows probs_host))%nat) by (eapply lookup_lt_Some; eauto).
  specialize (Hall i ltac:(apply in_seq; lia)).
  destruct (lookup_lt_is_Some_2 (ss_rngs st) i) as [g Hg]; [lia|].
  rewrite (sample_task_eq i st cfg g Hcfg Hg), Hslot in Hall. cbn [obind] in Hall.
  rewrite <- (sample_row_undefined i cfg g slot p_prob Hrow).
  destruct (sample_row sort probs_host i cfg g slot); cbn in *; congruence.
Qed.
End Schedule.

(** C8: BatchSampleTokens is a function of the batch of rows, the
    configurations and the generators' draws, and its result (token ids,
    token probabilities, realized distributions, generator and cache state)
    is the same for every order in which the rows are processed. *)
Theorem C8_batch_sampling_independent_of_schedule
    (sort : list (F32.t * Z) -> list (F32.t * Z))
    (sched1 sched2 : nat -> list nat)
    (probs_host_ : option HostBuffer) (probs_device : NDArray)
    (request_ids : list nat) (generation_cfg : list GenerationConfig)
    (rngs : list RandomGenerator)
    (out_dist : option (list (option (list F32.t)))) (out_probs : option (list F32.t)) :
  (forall n, Permutation (sched1 n) (seq 0 n)) ->
  (forall n, Permutation (sched2 n) (seq 0 n)) ->
  BatchSampleTokens_sched sort sched1 probs_host_ probs_device request_ids
    generation_cfg rngs out_dist out_probs
  = BatchSampleTokens_sched sort sched2 probs_host_ probs_device request_ids
      generation_cfg rngs out_dist out_probs
  /\ BatchSampleTokens_sched sort sched1 probs_host_ probs_device request_ids
       generation_cfg rngs out_dist out_probs
     = BatchSampleTokens sort probs_host_ probs_device request_ids
         generation_cfg rngs out_dist out_probs.
Proof.
  intros H1 H2.
  assert (Hany : forall sched, (forall n, Permutation (sched n) (seq 0 n)) ->
    BatchSampleTokens_sched sort sched probs_host_ probs_device request_ids
      generation_cfg rngs out_dist out_probs
    = BatchSampleTokens sort probs_host_ probs_device request_ids
        generation_cfg rngs out_dist out_probs).
  { intros sched Hs. unfold BatchSampleTokens, BatchSampleTokens_sched.
    destruct (CopyProbsToCPU probs_host_ probs_device) as [[probs_host cache]| |];
      cbn [obind]; try reflexivity.
    unfold shape0.
    destruct (Z.eqb_spec (Z.of_nat (length (rows probs_host)))
                (Z.of_nat (length request_ids))); cbn [check obind]; [|reflexivity].
    destruct (Z.eqb_spec (Z.of_nat (length (rows probs_host)))
                (Z.of_nat (length generation_cfg))); cbn [check obind]; [|reflexivity].
    destruct (Z.eqb_spec (Z.of_nat (length (rows probs_host)))
                (Z.of_nat (length rngs))); cbn [check obind]; [|reflexivity].
    match goal with
    | |- context [runs_defined ?t ?l ?st] => destruct (runs_defined t l st) as [[]| |] eqn:Hdef
    end; cbn [obind]; try reflexivity.
    apply runs_defined_inv in Hdef; cbn [ss_rngs output_prob_dist]; try lia.
    - now rewrite (sample_tasks_any_order sort probs_host generation_cfg
                     (sched (length (rows probs_host))) _ Hdef (Hs _)).
    - intros slots Hsl. destruct out_dist as [d|]; [|discriminate].
      cbn in Hsl. injection Hsl as <-. apply length_resize. }
  split; [|now apply Hany].
  now rewrite (Hany sched1), (Hany sched2).
Qed.

(** ** Residency of the input tensor *)

(** C9 (amended): both batch entry points hand the input tensor to
    CopyProbsToCPU, whose first check demands a tensor that is not on the
    host: a host-resident input fails that check, under any schedule,
    whereas an accelerator-resident input (of at most [2^62] rows, on a fresh
    cache) is copied to a host view with the same rows. *)
Theorem C9_host_resident_input_fails_residency_check
    (sort : list (F32.t * Z) -> list (F32.t * Z)) (sched : nat -> list nat)
    (probs_host_ : option HostBuffer) (probs_device : NDArray) :
  (device_type probs_device = kDLCPU ->
     (forall request_ids generation_cfg rngs out_dist out_probs,
         BatchSampleTokens_sched sort sched probs_host_ probs_device request_ids
           generation_cfg rngs out_dist out_probs = CheckFailed)
     /\ (forall cum_verify_lengths mstates generation_cfg rngs toks qs dists,
         BatchVerifyDraftTokens_sched sort sched probs_host_ probs_device
           cum_verify_lengths mstates generation_cfg rngs toks qs dists = CheckFailed))
  /\ (device_type probs_device <> kDLCPU -> shape0 probs_device <= 2^62 ->
      exists cache,
        CopyProbsToCPU None probs_device
        = Ok ({| device_type := kDLCPU; shape1 := shape1 probs_device;
                 rows := rows probs_device |}, cache)).
Proof.
  split.
  - intros Hdev. split; intros; unfold BatchSampleTokens_sched, BatchVerifyDraftTokens_sched;
      now rewrite CopyProbsToCPU_on_host.
  - intros Hdev Hrows.
    destruct (CopyProbsToCPU_ok None probs_device Hdev I Hrows) as (j & _ & Heq & _).
    eauto.
Qed.

(** ** The insertion sort is a sort in the sense the sampler needs *)

Lemma insert_desc_perm x l : Permutation (insert_desc x l) (x :: l).
Proof.
  induction l as [|y l IH]; cbn [insert_desc]; [reflexivity|].
  destruct (fcmp x y); [reflexivity|].
  rewrite IH. apply perm_swap.
Qed.

Lemma isort_perm l : Permutation (isort l) l.
Proof.
  induction l as [|x l IH]; cbn [isort]; [reflexivity|].
  rewrite insert_desc_perm. now constructor.
Qed.





(** * Concrete runs *)

(** ** The host buffer cache on 10, 40 and 20 rows *)

Example cache_10_40_20 :
  copy_calls None [device_array 4 10] = Ok (Some {| hb_shape0 := 32; hb_shape1 := 4 |}) /\
  copy_calls None [device_array 4 10; device_array 4 40]
  = Ok (Some {| hb_shape0 := 64; hb_shape1 := 4 |}) /\
  copy_calls None [device_array 4 10; device_array 4 40; device_array 4 20]
  = Ok (Some {| hb_shape0 := 64; hb_shape1 := 4 |}).
Proof. repeat split; vm_compute; reflexivity. Qed.

(** ** Counterexamples *)

(** C1, as stated with the configured top_p: on a sequence configured with
    temperature 0 and top_p 0.9 whose draft token 0 is rejected, the token
    committed is 1, the argmax of the residual row (top_p resolved to 0),
    whereas sampling the residual row with the configured top_p 0.9 and the
    same draw yields token 2. *)
Lemma C1_counterexample_configured_top_p :
  exists st cache,
    BatchVerifyDraftTokens isort None target_probs [0; 1] [[]] [greedy_cfg] [two_draws]
      [[0]] [[f32_lit 3 4]] [[draft_dist]] = Ok (st, cache)
    /\ request_mstates st = [[1]]
    /\ rows (vs_probs st) = [residual_row target_row draft_row]
    /\ (exists prob,
          SampleTopPFromProb isort (vs_probs st) 0 (top_p greedy_cfg) (draws two_draws 1)
          = Ok ((prob, 2), residual_row target_row draft_row))
    /\ ~ (forall sampled,
            SampleTopPFromProb isort (vs_probs st) 0 (top_p greedy_cfg) (draws two_draws 1)
            = Ok sampled -> request_mstates st = [[cast_int sampled.1.2]]).
Proof.
  eexists _, _. split; [vm_compute; reflexivity|].
  split; [reflexivity|]. split; [vm_compute; reflexivity|].
  split; [eexists; vm_compute; reflexivity|].
  intros H. specialize (H _ ltac:(vm_compute; reflexivity)).
  vm_compute in H. discriminate.
Qed.

(** C3, the width change: after a call at width 4 a call at width 8 fails
    the width check; no cache at the new width is built. *)
Lemma C3_counterexample_width_change :
  copy_calls None [device_array 4 10; device_array 8 10] = CheckFailed
  /\ ~ (exists h, copy_calls None [device_array 4 10; device_array 8 10] = Ok (Some h)
                  /\ hb_shape1 h = 8).
Proof.
  split; [vm_compute; reflexivity|].
  intros (h & H & _). vm_compute in H. discriminate.
Qed.


(** C6, as stated for every row: on the all-zero row the argmax branch
    returns -1, which is not the index of an entry of the row. *)
Lemma C6_counterexample_all_zero_row :
  (SampleTopPFromProb_row isort zero_row F64.zero (F64.lit 1 2)).1 = Ok (F32.one, -1)
  /\ ~ (exists (i : nat) x,
          (SampleTopPFromProb_row isort zero_row F64.zero (F64.lit 1 2)).1
          = Ok (F32.one, Z.of_nat i)
          /\ zero_row !! i = Some x).
Proof.
  split; [vm_compute; reflexivity|].
  intros (i & x & H & _). vm_compute in H.
  injection H as H. destruct i; discriminate.
Qed.

(** C9, as stated: a host-resident input is rejected by both entry points. *)
Lemma C9_counterexample_host_input_rejected :
  BatchSampleTokens isort None host_array [0%nat] [sampling_cfg] [two_draws] None None
  = CheckFailed
  /\ BatchVerifyDraftTokens isort None host_array [0; 1] [[]] [sampling_cfg] [two_draws]
       [[0]] [[f32_lit 1 2]] [[draft_dist]] = CheckFailed
  /\ ~ (exists r,
          BatchSampleTokens isort None host_array [0%nat] [sampling_cfg] [two_draws]
            None None = Ok r).
Proof.
  split; [vm_compute; reflexivity|]. split; [vm_compute; reflexivity|].
  intros (r & H). vm_compute in H. discriminate.
Qed.

(** ** Instances of the theorems *)

Lemma C10_witness :
  F64.eqb F64.zero F64.zero = true /\
  Forall (fun x => F32.leb x F32.zero = true) nonpositive_row /\
  SampleTopPFromProb_row isort nonpositive_row F64.zero (F64.lit 1 2)
  = (Ok (F32.one, -1), replicate (length nonpositive_row) F32.zero).
Proof.
  assert (H1 : F64.eqb F64.zero F64.zero = true) by reflexivity.
  assert (H2 : Forall (fun x => F32.leb x F32.zero = true) nonpositive_row)
    by (repeat constructor).
  split; [exact H1|]. split; [exact H2|].
  exact (proj1 (C10_nonpositive_row_returns_minus_one isort nonpositive_row F64.zero
                  (F64.lit 1 2) H1 H2)).
Defined.

Lemma C6_witness :
  F64.eqb F64.zero F64.zero = true /\
  Exists (fun x => F32.gtb x F32.zero = true) example_row /\
  exists (i : nat) (x : F32.t),
    SampleTopPFromProb_row isort example_row F64.zero (F64.lit 1 2)
    = (Ok (F32.one, Z.of_nat i), one_hot (length example_row) (Z.of_nat i))
    /\ example_row !! i = Some x
    /\ (forall y, y ∈ example_row -> F32.gtb y x = false).
Proof.
  assert (H1 : F64.eqb F64.zero F64.zero = true) by reflexivity.
  assert (H2 : Exists (fun x => F32.gtb x F32.zero = true) example_row)
    by (apply Exists_cons_hd; vm_compute; reflexivity).
  split; [exact H1|]. split; [exact H2|].
  destruct (C6_argmax_of_positive_row isort example_row F64.zero (F64.lit 1 2) H1 H2)
    as (i & x & Hres & Hx & Hmax & _).
  exists i, x. split; [exact Hres|]. split; [exact Hx | exact Hmax].
Defined.



Lemma rejected_position_reads :
  reads [[0]] [[f32_lit 3 4]] 0 0 0 verify_start_state
    target_row 0 (f32_lit 3 4) (f32_lit 1 8) [] [].
Proof.
  constructor; try reflexivity; eexists; split; reflexivity.
Defined.

Lemma rejected_position_reject_reads :
  reject_reads [greedy_cfg] [[draft_dist]] 0 0 verify_start_state
    two_draws draft_dist greedy_cfg.
Proof.
  constructor; try reflexivity. eexists; split; reflexivity.
Defined.

Lemma C5_witness :
  let probs := set_row (vs_probs verify_start_state) (0 + 0)
                 (residual_row target_row (data1 draft_dist)) in
  let sampled := ((F32.one, 1), one_hot 3 1) in
  reads [[0]] [[f32_lit 3 4]] 0 0 0 verify_start_state
    target_row 0 (f32_lit 3 4) (f32_lit 1 8) [] [] /\
  reject_reads [greedy_cfg] [[draft_dist]] 0 0 verify_start_state
    two_draws draft_dist greedy_cfg /\
  F32.geb (f32_lit 1 8) (f32_lit 3 4) = false /\
  F32.ltb (f32_of_f64 (draws two_draws (cursor two_draws)))
    (F32.div (f32_lit 1 8) (F32.add (f32_lit 3 4) eps_)) = false /\
  SampleTopPFromProb isort probs (0 + 0) (resolved_top_p greedy_cfg)
    (draws two_draws (S (cursor two_draws))) = Ok sampled /\
  exists st',
    verify_loop isort [greedy_cfg] [[0]] [[f32_lit 3 4]] [[draft_dist]] 0 0 1 0
      verify_start_state = Ok st' /\
    request_mstates st' !! 0%nat = Some ([] ++ [cast_int sampled.1.2]) /\
    accepted_tokens st' !! 0%nat = Some ([] ++ [0]).
Proof.
  intros probs sampled.
  assert (Hge : F32.geb (f32_lit 1 8) (f32_lit 3 4) = false) by (vm_compute; reflexivity).
  assert (Hr : F32.ltb (f32_of_f64 (draws two_draws (cursor two_draws)))
                 (F32.div (f32_lit 1 8) (F32.add (f32_lit 3 4) eps_)) = false)
    by (vm_compute; reflexivity).
  assert (Hs : SampleTopPFromProb isort probs (0 + 0) (resolved_top_p greedy_cfg)
                 (draws two_draws (S (cursor two_draws))) = Ok sampled)
    by (vm_compute; reflexivity).
  split; [exact rejected_position_reads|].
  split; [exact rejected_position_reject_reads|].
  split; [exact Hge|]. split; [exact Hr|]. split; [exact Hs|].
  destruct (C5_rejection_commits_replacement_records_draft isort [greedy_cfg] [[0]]
              [[f32_lit 3 4]] [[draft_dist]] 0 0 0 verify_start_state
              target_row 0 (f32_lit 3 4) (f32_lit 1 8) [] [] two_draws draft_dist
              greedy_cfg sampled 0 rejected_position_reads
              rejected_position_reject_reads Hge Hr Hs)
    as (st' & Hloop & Hm & Ha & _).
  exists st'. split; [exact Hloop|]. split; [exact Hm | exact Ha].
Defined.

Lemma C1_witness :
  let row := residual_row target_row (data1 draft_dist) in
  let probs := set_row (vs_probs verify_start_state) (0 + 0) row in
  reads [[0]] [[f32_lit 3 4]] 0 0 0 verify_start_state
    target_row 0 (f32_lit 3 4) (f32_lit 1 8) [] [] /\
  verify_loop isort [greedy_cfg] [[0]] [[f32_lit 3 4]] [[draft_dist]] 0 0 1 0
    verify_start_state
  = (sampled <-- SampleTopPFromProb isort probs (0 + 0) (resolved_top_p greedy_cfg)
                   (draws two_draws (S (cursor two_draws))) ;;
     Ok (after_commit 0 [] [] (cast_int sampled.1.2) 0 probs
           (<[0%nat := advance 2 two_draws]> (vs_rngs verify_start_state))
           verify_start_state)) /\
  row_at probs (0 + 0) = Ok row.
Proof.
  intros row probs.
  assert (Hge : F32.geb (f32_lit 1 8) (f32_lit 3 4) = false) by (vm_compute; reflexivity).
  assert (Hr : F32.ltb (f32_of_f64 (draws two_draws (cursor two_draws)))
                 (F32.div (f32_lit 1 8) (F32.add (f32_lit 3 4) eps_)) = false)
    by (vm_compute; reflexivity).
  split; [exact rejected_position_reads|].
  destruct (proj2 (proj2 (C1_per_position_protocol isort [greedy_cfg] [[0]]
              [[f32_lit 3 4]] [[draft_dist]] 0 0 0 verify_start_state
              target_row 0 (f32_lit 3 4) (f32_lit 1 8) [] [] rejected_position_reads)
              Hge two_draws Logic.eq_refl) Hr draft_dist greedy_cfg
              rejected_position_reject_reads)
    as (Hloop & Hrow & _).
  split; [exact (Hloop 0%nat) | exact Hrow].
Defined.

Lemma C8_witness :
  let reversed := fun n => reverse (seq 0 n) in
  (forall n, Permutation (reversed n) (seq 0 n)) /\
  (forall n, Permutation (seq 0 n) (seq 0 n)) /\
  BatchSampleTokens_sched isort reversed None two_rows [0%nat; 1%nat]
    [sampling_cfg; greedy_cfg] [two_draws; two_draws] (Some []) (Some [])
  = BatchSampleTokens_sched isort (seq 0) None two_rows [0%nat; 1%nat]
      [sampling_cfg; greedy_cfg] [two_draws; two_draws] (Some []) (Some []).
Proof.
  intros reversed.
  assert (H1 : forall n, Permutation (reversed n) (seq 0 n))
    by (intros n; apply reverse_Permutation).
  assert (H2 : forall n, Permutation (seq 0 n) (seq 0 n)) by reflexivity.
  split; [exact H1|]. split; [exact H2|].
  exact (proj1 (C8_batch_sampling_independent_of_schedule isort reversed (seq 0) None
                  two_rows [0%nat; 1%nat] [sampling_cfg; greedy_cfg]
                  [two_draws; two_draws] (Some []) (Some []) H1 H2)).
Defined.


(** * Further properties *)

(** ** Rows without a usable entry *)

Lemma leb_trans x y z : SFleb x y = true -> SFleb y z = true -> SFleb x z = true.
Proof.
  intros (a & b & Ha & Hb & H1)%leb_key (b' & c & Hb' & Hc & H2)%leb_key.
  apply leb_key. exists a, c. repeat split; auto.
  assert (b' = b) by congruence. subst.
  destruct H1 as [H1| ->], H2 as [H2| ->]; eauto using lexlt_trans.
Qed.

Lemma argmax_loop_nan l : forall i m pos,
  Forall (fun x => is_nan x = true) l -> argmax_loop l i m pos = (m, pos).
Proof.
  induction l as [|x l IH]; intros i m pos H; cbn [argmax_loop]; [reflexivity|].
  inversion H as [|? ? Hx Hl]; subst.
  destruct x; try discriminate. unfold F32.gtb. destruct m; simpl; auto.
Qed.

Lemma filter_loop_nan cuttoff l : forall i s,
  Forall (fun x => is_nan x = true) l -> filter_loop cuttoff l i s = [].
Proof.
  induction l as [|x l IH]; intros i s H; cbn [filter_loop]; [reflexivity|].
  inversion H as [|? ? Hx Hl]; subst.
  destruct x; try discriminate. unfold F32.geb. destruct cuttoff; simpl; auto.
Qed.

Lemma cdf_loop_nan l : forall i u,
  Forall (fun x => is_nan x = true) l -> cdf_loop l i S754_nan u = None.
Proof.
  induction l as [|x l IH]; intros i u H; cbn [cdf_loop]; [reflexivity|].
  inversion H as [|? ? Hx Hl]; subst. destruct x; try discriminate.
  change (F64.add S754_nan (f64_of_f32 S754_nan)) with S754_nan.
  unfold F64.geb. destruct u; simpl; auto.
Qed.

Lemma cdf_loop_nan_row l i s u :
  Forall (fun x => is_nan x = true) l -> cdf_loop l i s u = None.
Proof.
  destruct l as [|x l]; intros H; cbn [cdf_loop]; [reflexivity|].
  inversion H as [|? ? Hx Hl]; subst. destruct x; try discriminate.
  assert (F64.add s (f64_of_f32 S754_nan) = S754_nan) as -> by (destruct s; reflexivity).
  unfold F64.geb. destruct u; simpl; now apply cdf_loop_nan.
Qed.

Section DegenerateRows.
Variable sort : list (F32.t * Z) -> list (F32.t * Z).

Lemma nan_row_outcome (p_prob : list F32.t) (top_p u : F64.t) :
  Forall (fun x => is_nan x = true) p_prob ->
  (SampleTopPFromProb_row sort p_prob top_p u).1
  = if F64.eqb top_p F64.zero then Ok (F32.one, -1) else CheckFailed.
Proof.
  intros H. unfold SampleTopPFromProb_row.
  destruct (F64.eqb top_p F64.zero).
  - unfold argmax_pos_of. now rewrite argmax_loop_nan.
  - destruct (F64.geb top_p one); cbn [fst].
    + now rewrite cdf_loop_nan_row.
    + unfold nucleus, fallback, sample_top_p_with_filter.
      rewrite !filter_loop_nan by assumption.
      destruct (F64.ltb top_p (F64.of_Z 1)); reflexivity.
Qed.

(** X1: on a row that is empty or holds only NaN, sampling with
    [top_p == 0] returns token [-1] with probability 1.0, and sampling with
    any other [top_p] (inverse-CDF branch, nucleus branch, NaN) fails a
    check, whatever the draw. *)
Theorem nan_row_fails_or_returns_minus_one (p_prob : list F32.t) (top_p u : F64.t) :
  Forall (fun x => is_nan x = true) p_prob ->
  (SampleTopPFromProb_row sort p_prob top_p u).1
  = if F64.eqb top_p F64.zero then Ok (F32.one, -1) else CheckFailed.
Proof. exact (nan_row_outcome p_prob top_p u). Qed.
End DegenerateRows.

(** ** The inverse-CDF branch ([top_p >= one]) *)

Lemma cdf_sum_snoc s l x :
  cdf_sum s (l ++ [x]) = F64.add (cdf_sum s l) (f64_of_f32 x).
Proof. unfold cdf_sum. now rewrite foldl_app. Qed.

Lemma cdf_loop_some l : forall i s u x r,
  cdf_loop l i s u = Some (x, r) ->
  exists k : nat,
    r = i + Z.of_nat k /\ l !! k = Some x /\
    F64.geb (cdf_sum s (take (S k) l)) u = true /\
    forall j : nat, (j < k)%nat -> F64.geb (cdf_sum s (take (S j) l)) u = false.
Proof.
  induction l as [|y l IH]; intros i s u x r; cbn [cdf_loop]; [discriminate|].
  destruct (F64.geb (F64.add s (f64_of_f32 y)) u) eqn:E.
  - intros [= <- <-]. exists 0%nat.
    split; [lia|]. split; [reflexivity|]. split; [exact E|].
    intros j Hj. lia.
  - intros H. apply IH in H as (k & -> & Hk & Hge & Hlt).
    exists (S k). split; [lia|]. split; [exact Hk|]. split; [exact Hge|].
    intros [|j] Hj; [exact E|].
    apply (Hlt j). lia.
Qed.

Lemma cdf_loop_none l : forall i s u,
  cdf_loop l i s u = None <->
  forall j : nat, (j < length l)%nat -> F64.geb (cdf_sum s (take (S j) l)) u = false.
Proof.
  induction l as [|y l IH]; intros i s u; cbn [cdf_loop].
  - split; [intros _ j Hj; simpl in Hj; lia | reflexivity].
  - destruct (F64.geb (F64.add s (f64_of_f32 y)) u) eqn:E.
    + split; [discriminate|]. intros H.
      specialize (H 0%nat ltac:(simpl; lia)).
      change (cdf_sum s (take 1 (y :: l))) with (F64.add s (f64_of_f32 y)) in H.
      congruence.
    + rewrite IH. split.
      * intros H [|j] Hj; [exact E|].
        apply (H j). simpl in Hj. lia.
      * intros H j Hj. apply (H (S j)). simpl. lia.
Qed.

Section InverseCdf.
Variable sort : list (F32.t * Z) -> list (F32.t * Z).

(** X2: for [top_p >= one] (and [top_p <> 0]) the sampler walks the row
    accumulating its entries in double precision and returns the first index
    at which the running sum reaches the uniform draw, with the raw entry as
    probability; it fails a check exactly when no running sum reaches the
    draw. *)
Theorem inverse_cdf_returns_first_index_reaching_draw
    (p_prob : list F32.t) (top_p u : F64.t) :
  F64.eqb top_p F64.zero = false ->
  F64.geb top_p one = true ->
  (forall x idx,
      (SampleTopPFromProb_row sort p_prob top_p u).1 = Ok (x, idx) <->
      exists k : nat,
        idx = Z.of_nat k /\ p_prob !! k = Some x /\
        F64.geb (cdf_sum F64.zero (take (S k) p_prob)) u = true /\
        forall j : nat, (j < k)%nat ->
                        F64.geb (cdf_sum F64.zero (take (S j) p_prob)) u = false)
  /\ ((SampleTopPFromProb_row sort p_prob top_p u).1 = CheckFailed <->
      forall j : nat, (j < length p_prob)%nat ->
                      F64.geb (cdf_sum F64.zero (take (S j) p_prob)) u = false).
Proof.
  intros H0 H1. unfold SampleTopPFromProb_row. rewrite H0, H1. cbn [fst].
  destruct (cdf_loop p_prob 0 F64.zero u) as [[y r]|] eqn:E.
  - pose proof (cdf_loop_some _ _ _ _ _ _ E) as (k & Hr & Hk & Hge & Hlt).
    rewrite Z.add_0_l in Hr. split.
    + intros x idx. split.
      * intros [= <- <-]. exists k. auto.
      * intros (k' & -> & Hk' & Hge' & Hlt').
        assert (k' = k) as ->.
        { destruct (Nat.lt_trichotomy k' k) as [Hc|[Hc|Hc]]; auto.
          - rewrite (Hlt k' Hc) in Hge'. discriminate.
          - rewrite (Hlt' k Hc) in Hge. discriminate. }
        congruence.
    + split; [discriminate|]. intros Hall.
      assert (k < length p_prob)%nat by (eapply lookup_lt_Some; eauto).
      rewrite (Hall k) in Hge by assumption. discriminate.
  - split.
    + intros x idx. split; [discriminate|].
      intros (k & -> & Hk & Hge & _).
      pose proof (proj1 (cdf_loop_none _ _ _ _) E k) as Hn.
      rewrite Hn in Hge; [discriminate|]. eapply lookup_lt_Some; eauto.
    + split; [intros _; now apply (cdf_loop_none p_prob 0)|reflexivity].
Qed.
End InverseCdf.

(** ** The returned token id *)

Lemma leb_not_nan x y : SFleb x y = true -> is_nan x = false /\ is_nan y = false.
Proof.
  intros (a & b & Ha & Hb & _)%leb_key.
  destruct x, y; simpl in *; auto; discriminate.
Qed.

Lemma filter_loop_entry cuttoff p_prob x idx :
  Z.of_nat (length p_prob) <= 2^31 ->
  (x, idx) ∈ filter_loop cuttoff p_prob 0 F32.zero ->
  0 <= idx < Z.of_nat (length p_prob) /\
  p_prob !! Z.to_nat idx = Some x /\ F32.geb x cuttoff = true.
Proof.
  intros Hlen Hin.
  destruct (filter_loop_scan cuttoff p_prob 0 F32.zero) as (k & Hk & Heq & _).
  rewrite Heq in Hin. apply kept_elem in Hin as (j & Hj & -> & Hge).
  apply lookup_take_Some in Hj as [Hj Hlt].
  rewrite cast_int_id by lia. rewrite Z.add_0_l, Nat2Z.id.
  repeat split; auto; lia.
Qed.

Section TokenRange.
Variable sort : list (F32.t * Z) -> list (F32.t * Z).
Hypothesis sort_perm : forall l, Permutation (sort l) l.

Lemma pass_result_candidate p_prob top_p u cuttoff :
  let r := sample_top_p_with_filter sort p_prob top_p u cuttoff in
  r = no_selection \/
  exists x, (x, r.2) ∈ filter_loop cuttoff p_prob 0 F32.zero.
Proof.
  cbv zeta. rewrite (pass_unfold sort sort_perm).
  destruct (sorted_candidates sort cuttoff p_prob) as [|data0 rest] eqn:Es; [now left|].
  assert (Hidx : forall i, i ∈ (data0 :: rest).*2 ->
                           exists x, (x, i) ∈ filter_loop cuttoff p_prob 0 F32.zero).
  { intros i ([x i'] & -> & Hin)%list_elem_of_fmap. exists x.
    rewrite <- Es in Hin. now apply (sorted_candidates_elem sort sort_perm) in Hin. }
  destruct (fast_exit top_p u (data0 :: rest)).
  { right. apply Hidx. simpl. apply elem_of_cons. now left. }
  destruct (insufficient top_p cuttoff (data0 :: rest)); [now left|].
  right. cbv zeta.
  pose proof (cum_loop_indices top_p (data0 :: rest) F32.zero F32.zero) as Hc.
  destruct (pick_loop u _ _ F32.zero) eqn:Ep.
  - apply Hidx. rewrite <- Hc. eapply pick_loop_inl; eauto.
  - cbn [snd]. rewrite last_snd. apply Hidx. rewrite <- Hc.
    apply last_elem. rewrite Hc. discriminate.
Qed.

(** X3: whenever the sampler returns, the token id is [-1] (possible in
    the [top_p == 0] branch only) or a valid index of the row whose entry is
    not NaN; with [top_p <> 0] it is always a valid index.  Rows of at most
    [2^31] entries. *)
Theorem returned_token_is_a_row_index (p_prob : list F32.t) (top_p u : F64.t) prob idx :
  Z.of_nat (length p_prob) <= 2^31 ->
  (SampleTopPFromProb_row sort p_prob top_p u).1 = Ok (prob, idx) ->
  (idx = -1 /\ F64.eqb top_p F64.zero = true) \/
  (0 <= idx < Z.of_nat (length p_prob) /\
   exists x, p_prob !! Z.to_nat idx = Some x /\ is_nan x = false).
Proof.
  intros Hlen. unfold SampleTopPFromProb_row.
  destruct (F64.eqb top_p F64.zero) eqn:E0.
  - cbn [fst]. intros [= <- <-].
    destruct (argmax_row_inv p_prob) as [Hn _ _ [[Hp _]|(Hp1 & Hp2 & _)]];
      [left; auto|right].
    pose proof (lookup_lt_Some _ _ _ Hp2). split; [lia|eauto].
  - intros Heq0. right. revert Heq0. destruct (F64.geb top_p one); cbn [fst].
    + destruct (cdf_loop p_prob 0 F64.zero u) as [[y r]|] eqn:E; [|discriminate].
      intros [= <- <-].
      apply cdf_loop_some in E as (k & -> & Hk & Hge & _).
      pose proof (lookup_lt_Some _ _ _ Hk). rewrite Z.add_0_l, Nat2Z.id.
      split; [lia|]. exists y. split; [exact Hk|].
      rewrite (take_S_r _ _ _ Hk), cdf_sum_snoc in Hge.
      destruct y; try reflexivity.
      assert (F64.add (cdf_sum F64.zero (take k p_prob)) (f64_of_f32 S754_nan) = S754_nan)
        as Hnan by (destruct (cdf_sum F64.zero (take k p_prob)); reflexivity).
      rewrite Hnan in Hge. unfold F64.geb in Hge. destruct u; discriminate.
    + assert (Hpass : forall cuttoff,
        let r := sample_top_p_with_filter sort p_prob top_p u cuttoff in
        0 <= r.2 ->
        0 <= r.2 < Z.of_nat (length p_prob) /\
        exists x, p_prob !! Z.to_nat r.2 = Some x /\ is_nan x = false).
      { intros cuttoff r Hr.
        destruct (pass_result_candidate p_prob top_p u cuttoff) as [Hs|(x & Hin)].
        - fold r in Hs. rewrite Hs in Hr. simpl in Hr. lia.
        - fold r in Hin.
          destruct (filter_loop_entry _ _ _ _ Hlen Hin) as (Hrange & Hx & Hge).
          split; [exact Hrange|]. exists x. split; [exact Hx|].
          unfold F32.geb in Hge. now apply leb_not_nan in Hge as [_ ?]. }
      assert (Hfall : fallback sort p_prob top_p u = Ok (prob, idx) ->
        0 <= idx < Z.of_nat (length p_prob) /\
        exists x, p_prob !! Z.to_nat idx = Some x /\ is_nan x = false).
      { unfold fallback.
        destruct (Z.leb_spec 0 (sample_top_p_with_filter sort p_prob top_p u F32.zero).2)
          as [Hr|Hr]; cbn [check obind]; [|discriminate].
        intros [= Heq]. pose proof (Hpass F32.zero Hr) as Hp.
        cbv zeta in Hp. now rewrite Heq in Hp. }
      unfold nucleus. destruct (F64.ltb top_p (F64.of_Z 1)); [|exact Hfall].
      destruct (Z.leb_spec 0 (sample_top_p_with_filter sort p_prob top_p u
                                (f32_of_f64 (F64.div top_p (F64.of_Z 1024)))).2)
        as [Hr|Hr]; [|exact Hfall].
      intros [= Heq]. pose proof (Hpass _ Hr) as Hp.
      cbv zeta in Hp. now rewrite Heq in Hp.
Qed.
End TokenRange.

(** ** The selection stays inside the nucleus *)

Lemma div_self s m e :
  F32.div (S754_finite s m e) (S754_finite s m e) = F32.one.
Proof.
  unfold F32.div, SFdiv.
  assert (Hcore : SFdiv_core_binary F32.prec F32.emax (Zpos m) e (Zpos m) e
                  = (2 ^ 24, -24, loc_Exact)).
  { unfold SFdiv_core_binary. rewrite !Z.sub_diag.
    change (Z.min (fexp F32.prec F32.emax 0) 0) with (-24).
    change (0 - -24) with 24.
    cbv beta iota zeta.
    rewrite Z.shiftl_mul_pow2 by lia.
    assert (Hd : Z.div_eucl (Zpos m * 2 ^ 24) (Zpos m) = (2 ^ 24, 0)).
    { assert (Hp : Z.div_eucl (Zpos m * 2 ^ 24) (Zpos m)
                   = ((Zpos m * 2 ^ 24) / Zpos m, (Zpos m * 2 ^ 24) mod Zpos m))
        by (unfold Z.div, Z.modulo;
            destruct (Z.div_eucl (Zpos m * 2 ^ 24) (Zpos m)); reflexivity).
      rewrite Hp, (Z.mul_comm (Zpos m)), Z.div_mul, Z.mod_mul by lia.
      reflexivity. }
    rewrite Hd. unfold new_location.
    destruct (Z.even (Zpos m)); reflexivity. }
  rewrite Hcore. destruct s; reflexivity.
Qed.

Lemma cum_loop_shape top_p data : forall c t,
  let r := cum_loop top_p data c t in
  let m := nucleus_size top_p data c in
  (c = t -> r.1.2 = r.2) /\
  ((0 < m)%nat -> exists idx, r.1.1 !! (m - 1)%nat = Some (r.1.2, idx)).
Proof.
  induction data as [|[prob idx] tl IH]; intros c t; cbn [cum_loop nucleus_size].
  - cbn. split; [auto | lia].
  - destruct (F64.ltb (f64_of_f32 c) top_p) eqn:E.
    + specialize (IH (F32.add c prob) (F32.add t prob)). cbv zeta in IH.
      destruct (cum_loop top_p tl (F32.add c prob) (F32.add t prob)) as [[tl' c'] t'] eqn:Ec.
      cbn [fst snd] in *. destruct IH as [IH1 IH2]. split.
      * intros ->. now apply IH1.
      * intros _. destruct (nucleus_size top_p tl (F32.add c prob)) as [|m] eqn:Em.
        -- exists idx. cbn.
           destruct tl as [|[p2 i2] tl2]; cbn in Ec, Em.
           ++ now injection Ec as <- <- <-.
           ++ destruct (F64.ltb (f64_of_f32 (F32.add c prob)) top_p); [discriminate|].
              now injection Ec as <- <- <-.
        -- destruct IH2 as [idx' Hidx']; [lia|]. exists idx'.
           replace (S (S m) - 1)%nat with (S (S m - 1)) by lia. exact Hidx'.
    + cbn. split; [auto | lia].
Qed.

Lemma pick_loop_hit u tps data : forall lastc (k : nat) first second,
  data !! k = Some (first, second) ->
  F64.ltb u (f64_of_f32 (F32.div first tps)) = true ->
  exists r, pick_loop u tps data lastc = inl r /\ r.2 ∈ (take (S k) data).*2.
Proof.
  induction data as [|[f0 s0] tl IH]; intros lastc k first second Hk Hu; [discriminate|].
  cbn [pick_loop].
  destruct (F64.ltb u (f64_of_f32 (F32.div f0 tps))) eqn:E.
  - eexists. split; [reflexivity|]. cbn. apply elem_of_cons. now left.
  - destruct k as [|k].
    + injection Hk as <- <-. congruence.
    + destruct (IH f0 k first second Hk Hu) as (r & Hr & Hin).
      exists r. split; [exact Hr|].
      change (take (S (S k)) ((f0, s0) :: tl)) with ((f0, s0) :: take (S k) tl).
      rewrite fmap_cons. apply elem_of_cons. now right.
Qed.

Section NucleusPrefix.
Variable sort : list (F32.t * Z) -> list (F32.t * Z).
Hypothesis sort_perm : forall l, Permutation (sort l) l.

(** X4: in a pass with [0 < top_p] and a draw below 1, whenever the
    accumulated [top_p_sum] is a nonzero finite number the returned token is
    one of the sorted candidates visited by the loop that computes
    [top_p_sum] (those whose preceding cumulative sum is below [top_p]): the
    candidates after the crossing point are walked by the selection loop but
    never returned. *)
Theorem selection_stays_inside_nucleus (p_prob : list F32.t) (top_p u : F64.t)
    (cuttoff : F32.t) :
  let data := sorted_candidates sort cuttoff p_prob in
  let r := sample_top_p_with_filter sort p_prob top_p u cuttoff in
  F64.ltb F64.zero top_p = true ->
  F64.ltb u F64.one = true ->
  finite_nonzero (cum_loop top_p data F32.zero F32.zero).2 = true ->
  r <> no_selection ->
  (0 < nucleus_size top_p data F32.zero)%nat /\
  r.2 ∈ (take (nucleus_size top_p data F32.zero) data).*2.
Proof.
  intros data r H0 Hu Hfin Hsel. subst r. revert Hsel.
  rewrite (pass_unfold sort sort_perm). fold data.
  destruct data as [|[p0 i0] rest] eqn:Ed; [congruence|].
  assert (Hm : exists m, nucleus_size top_p ((p0, i0) :: rest) F32.zero = S m).
  { cbn [nucleus_size].
    change (f64_of_f32 F32.zero) with F64.zero. rewrite H0. eauto. }
  destruct Hm as [m Hm]. rewrite Hm.
  split; [lia|].
  destruct (fast_exit top_p u ((p0, i0) :: rest)).
  { cbn. apply elem_of_cons. now left. }
  destruct (insufficient top_p cuttoff ((p0, i0) :: rest)); [congruence|].
  cbv zeta.
  pose proof (cum_loop_shape top_p ((p0, i0) :: rest) F32.zero F32.zero) as [Heq Hlast].
  pose proof (cum_loop_indices top_p ((p0, i0) :: rest) F32.zero F32.zero) as Hidx.
  rewrite Hm in Hlast. destruct Hlast as [idx Hlast]; [lia|].
  rewrite (Heq Logic.eq_refl) in Hlast.
  set (res := cum_loop top_p ((p0, i0) :: rest) F32.zero F32.zero) in *.
  destruct (snd res) as [| | |s mt et] eqn:Et; try discriminate.
  destruct (pick_loop_hit u (S754_finite s mt et) res.1.1 F32.zero (S m - 1)
              (S754_finite s mt et) idx Hlast) as (x & Hx & Hin).
  { rewrite div_self. exact Hu. }
  rewrite Hx. replace (S (S m - 1)) with (S m) in Hin by lia.
  rewrite fmap_take in Hin |- *. now rewrite Hidx in Hin.
Qed.
End NucleusPrefix.

(** ** Draft verification: whole sequences *)

Lemma at_index_Ok {A} (l : list A) (k : Z) x :
  at_index l k = Ok x <-> 0 <= k /\ l !! Z.to_nat k = Some x.
Proof.
  unfold at_index. destruct (Z.ltb_spec k 0).
  - split; [discriminate | lia].
  - destruct (l !! Z.to_nat k); cbn; split; intros; try discriminate.
    + split; [lia | congruence].
    + f_equal. destruct H0 as [_ H0]. congruence.
    + destruct H0 as [_ H0]. discriminate.
Qed.

Section Sequences.
Variable sort : list (F32.t * Z) -> list (F32.t * Z).
Variable generation_cfg : list GenerationConfig.
Variable draft_output_tokens : list (list Z).
Variable draft_output_token_prob : list (list F32.t).
Variable draft_output_prob_dist : list (list NDArray1).
Variable i : nat.
Variable verify_start : Z.

Local Abbreviation step idx st :=
  (verify_position sort generation_cfg draft_output_tokens draft_output_token_prob
     draft_output_prob_dist i verify_start idx st).

Local Abbreviation loop n idx st :=
  (verify_loop sort generation_cfg draft_output_tokens draft_output_token_prob
     draft_output_prob_dist i verify_start n idx st).

(** what one position does to the state when it returns *)
Lemma verify_position_inv idx st st' b toks m a :
  step idx st = Ok (st', b) ->
  draft_output_tokens !! i = Some toks ->
  request_mstates st !! i = Some m ->
  accepted_tokens st !! i = Some a ->
  exists tok committed,
    at_index toks idx = Ok tok /\
    request_mstates st' = <[i := m ++ [committed]]> (request_mstates st) /\
    accepted_tokens st' = <[i := a ++ [tok]]> (accepted_tokens st) /\
    (b = true -> committed = tok /\ vs_probs st' = vs_probs st) /\
    shape1 (vs_probs st') = shape1 (vs_probs st) /\
    device_type (vs_probs st') = device_type (vs_probs st) /\
    length (rows (vs_probs st')) = length (rows (vs_probs st)) /\
    (forall j : nat, j <> Z.to_nat (verify_start + idx) ->
                     rows (vs_probs st') !! j = rows (vs_probs st) !! j) /\
    length (vs_rngs st') = length (vs_rngs st) /\
    (forall j : nat, j <> i -> vs_rngs st' !! j = vs_rngs st !! j).
Proof.
  intros Hstep Ht Hm Ha. unfold verify_position in Hstep. rewrite Ht in Hstep.
  destruct (row_at (vs_probs st) (verify_start + idx)) as [p_probs| |]; try discriminate.
  cbn [obind of_option] in Hstep.
  destruct (at_index toks idx) as [tok| |]; try discriminate. cbn [obind] in Hstep.
  destruct (draft_output_token_prob !! i) as [qs|]; try discriminate.
  cbn [obind of_option] in Hstep.
  destruct (at_index qs idx) as [q_value| |]; try discriminate. cbn [obind] in Hstep.
  destruct (at_index p_probs tok) as [p_value| |]; try discriminate. cbn [obind] in Hstep.
  destruct (F32.geb p_value q_value).
  { unfold commit_and_record in Hstep. rewrite Hm, Ha in Hstep.
    cbn [obind of_option] in Hstep. injection Hstep as <- <-.
    exists tok, tok. cbn. repeat split; auto. }
  unfold draw at 1 in Hstep.
  destruct (vs_rngs st !! i) as [g|] eqn:Hg; try discriminate.
  cbn [obind of_option GetRandomNumber] in Hstep.
  destruct (F32.ltb _ _).
  { unfold commit_and_record in Hstep. cbn [request_mstates accepted_tokens] in Hstep.
    rewrite Hm, Ha in Hstep. cbn [obind of_option] in Hstep. injection Hstep as <- <-.
    exists tok, tok. cbn. repeat split; auto.
    - apply length_insert.
    - intros j Hj. now apply list_lookup_insert_ne. }
  destruct (draft_output_prob_dist !! i) as [dists|]; try discriminate.
  cbn [obind of_option] in Hstep.
  destruct (at_index dists idx) as [q_dist| |]; try discriminate. cbn [obind] in Hstep.
  destruct (check (device_eqb (device_type1 q_dist) kDLCPU)); try discriminate.
  cbn [obind] in Hstep.
  destruct (check (_ =? _)); try discriminate. cbn [obind] in Hstep.
  destruct (generation_cfg !! i) as [cfg|]; try discriminate.
  cbn [obind of_option] in Hstep.
  unfold draw in Hstep. cbn [vs_rngs] in Hstep.
  destruct (<[i:=_]> (vs_rngs st) !! i) as [g2|]; try discriminate.
  cbn [obind of_option GetRandomNumber] in Hstep.
  destruct (SampleTopPFromProb _ _ _ _ _) as [sampled| |]; try discriminate.
  cbn [obind] in Hstep.
  unfold commit_and_record in Hstep. cbn [request_mstates accepted_tokens] in Hstep.
  rewrite Hm, Ha in Hstep. cbn [obind of_option] in Hstep. injection Hstep as <- <-.
  exists tok, (cast_int sampled.1.2). cbn.
  repeat split; auto; try discriminate.
  - apply length_insert.
  - intros j Hj. apply list_lookup_insert_ne. congruence.
  - now rewrite !length_insert.
  - intros j Hj. rewrite !list_lookup_insert_ne by congruence. reflexivity.
Qed.

(** X5: when the loop over the draft positions of a sequence returns, it
    has processed [k] positions ([1 <= k <= n] unless [n = 0]); the list of
    accepted tokens of the sequence has grown by the first [k] draft tokens
    (the rejected one included), the committed tokens by [k] tokens that
    coincide with the draft on the first [k - 1]; the lists and generators
    of the other sequences are unchanged. *)
Theorem verify_loop_records_draft_prefix n : forall idx st st' toks m a,
  verify_loop sort generation_cfg draft_output_tokens draft_output_token_prob
    draft_output_prob_dist i verify_start n idx st = Ok st' ->
  draft_output_tokens !! i = Some toks ->
  request_mstates st !! i = Some m ->
  accepted_tokens st !! i = Some a ->
  exists (k : nat) committed,
    (k <= n)%nat /\ ((0 < n)%nat -> (0 < k)%nat) /\
    accepted_tokens st' !! i = Some (a ++ take k (drop (Z.to_nat idx) toks)) /\
    (k <= length (drop (Z.to_nat idx) toks))%nat /\
    request_mstates st' !! i = Some (m ++ committed) /\
    length committed = k /\
    take (k - 1) committed = take (k - 1) (drop (Z.to_nat idx) toks) /\
    (forall j : nat, j <> i ->
       request_mstates st' !! j = request_mstates st !! j /\
       accepted_tokens st' !! j = accepted_tokens st !! j /\
       vs_rngs st' !! j = vs_rngs st !! j).
Proof.
  induction n as [|n IH]; intros idx st st' toks m a Hloop Ht Hm Ha.
  - cbn in Hloop. injection Hloop as <-. exists 0%nat, [].
    rewrite take_0, !app_nil_r. repeat split; auto; lia.
  - cbn [verify_loop] in Hloop.
    destruct (step idx st) as [[st1 b]| |] eqn:Hstep; try discriminate.
    cbn [obind] in Hloop.
    destruct (verify_position_inv _ _ _ _ _ _ _ Hstep Ht Hm Ha)
      as (tok & c1 & Htok & Hms & Hacc & Hb & _ & _ & _ & _ & _ & Hrng).
    apply at_index_Ok in Htok as [Hidx Htok].
    pose proof (lookup_lt_Some _ _ _ Hm) as Hlm.
    pose proof (lookup_lt_Some _ _ _ Ha) as Hla.
    assert (Hm1 : request_mstates st1 !! i = Some (m ++ [c1]))
      by (rewrite Hms; now apply list_lookup_insert_eq).
    assert (Ha1 : accepted_tokens st1 !! i = Some (a ++ [tok]))
      by (rewrite Hacc; now apply list_lookup_insert_eq).
    assert (Hframe1 : forall j : nat, j <> i ->
       request_mstates st1 !! j = request_mstates st !! j /\
       accepted_tokens st1 !! j = accepted_tokens st !! j /\
       vs_rngs st1 !! j = vs_rngs st !! j).
    { intros j Hj. rewrite Hms, Hacc.
      rewrite !list_lookup_insert_ne by congruence. auto. }
    rewrite (drop_S _ _ _ Htok).
    destruct b.
    + destruct (Hb Logic.eq_refl) as [-> _].
      destruct (IH _ _ _ toks _ _ Hloop Ht Hm1 Ha1)
        as (k & c & Hk & Hpos & Hacc' & Hlen & Hms' & Hc & Hpre & Hframe).
      replace (Z.to_nat (idx + 1)) with (S (Z.to_nat idx)) in * by lia.
      exists (S k), (tok :: c).
      rewrite <- !app_assoc in Hacc', Hms'. cbn [app] in Hacc', Hms'.
      split; [lia|]. split; [lia|]. split; [exact Hacc'|].
      split; [cbn [length]; lia|]. split; [exact Hms'|].
      split; [cbn [length]; lia|]. split.
      * replace (S k - 1)%nat with k by lia.
        destruct k as [|k]; [reflexivity|].
        cbn [take]. f_equal. now replace (S k - 1)%nat with k in Hpre by lia.
      * intros j Hj. destruct (Hframe j Hj) as (-> & -> & ->). now apply Hframe1.
    + injection Hloop as <-. exists 1%nat, [c1]. cbn [take length].
      rewrite take_0.
      split; [lia|]. split; [lia|]. split; [exact Ha1|].
      split; [lia|]. split; [exact Hm1|].
      split; [reflexivity|]. split; [reflexivity|]. exact Hframe1.
Qed.

Lemma loop_all_accept toks qs P R rest : forall idx st m a,
  draft_output_tokens !! i = Some toks ->
  draft_output_token_prob !! i = Some qs ->
  vs_probs st = P -> vs_rngs st = R ->
  request_mstates st !! i = Some m ->
  accepted_tokens st !! i = Some a ->
  (forall (k : nat) tok, rest !! k = Some tok ->
     exists p_probs q p,
       at_index toks (idx + Z.of_nat k) = Ok tok /\
       row_at P (verify_start + (idx + Z.of_nat k)) = Ok p_probs /\
       at_index qs (idx + Z.of_nat k) = Ok q /\
       at_index p_probs tok = Ok p /\ F32.geb p q = true) ->
  loop (length rest) idx st
  = Ok {| vs_probs := P; vs_rngs := R;
          request_mstates := <[i := m ++ rest]> (request_mstates st);
          accepted_tokens := <[i := a ++ rest]> (accepted_tokens st) |}.
Proof.
  induction rest as [|tok rest IH]; intros idx st m a Ht Hq HP HR Hm Ha Hall.
  - cbn. rewrite !app_nil_r, !list_insert_id by assumption.
    destruct st; cbn in *; now subst.
  - destruct (Hall 0%nat tok Logic.eq_refl) as (p_probs & q & p & H1 & H2 & H3 & H4 & H5).
    rewrite Z.add_0_r in H1, H2, H3.
    assert (Hreads : reads draft_output_tokens draft_output_token_prob i verify_start idx st
                       p_probs tok q p m a).
    { rewrite <- HP in H2. constructor; eauto. }
    cbn [length].
    rewrite (loop_continue sort generation_cfg draft_output_tokens draft_output_token_prob
               draft_output_prob_dist i verify_start idx st (length rest) _
               (step_accept_deterministic sort generation_cfg draft_output_tokens
                  draft_output_token_prob draft_output_prob_dist i verify_start idx st
                  _ _ _ _ _ _ Hreads H5)).
    pose proof (lookup_lt_Some _ _ _ Hm) as Hlm.
    pose proof (lookup_lt_Some _ _ _ Ha) as Hla.
    rewrite (IH (idx + 1) (after_commit i m a tok tok (vs_probs st) (vs_rngs st) st)
               (m ++ [tok]) (a ++ [tok]) Ht Hq HP HR).
    + cbn [after_commit request_mstates accepted_tokens].
      rewrite !list_insert_insert_eq, <- !app_assoc. reflexivity.
    + cbn. now apply list_lookup_insert_eq.
    + cbn. now apply list_lookup_insert_eq.
    + intros k tok' Hk.
      destruct (Hall (S k) tok' Hk) as (p_probs' & q' & p' & G1 & G2 & G3 & G4 & G5).
      replace (idx + 1 + Z.of_nat k) with (idx + Z.of_nat (S k)) by lia.
      eauto 10.
Qed.

(** X6: if at every draft position of a sequence the target probability
    of the draft token is at least its draft probability, the sequence's
    run accepts and commits the whole draft, in order, without a draw and
    without touching the distribution rows. *)
Theorem dominating_target_accepts_whole_draft
    (cum_verify_lengths : list Z) (verify_end : Z) st toks qs m a :
  cum_verify_lengths !! i = Some verify_start ->
  cum_verify_lengths !! S i = Some verify_end ->
  draft_output_tokens !! i = Some toks ->
  draft_output_token_prob !! i = Some qs ->
  Z.of_nat (length toks) = verify_end - verify_start ->
  request_mstates st !! i = Some m ->
  accepted_tokens st !! i = Some a ->
  (forall (k : nat) tok, toks !! k = Some tok ->
     exists p_probs q p,
       row_at (vs_probs st) (verify_start + Z.of_nat k) = Ok p_probs /\
       qs !! k = Some q /\
       at_index p_probs tok = Ok p /\ F32.geb p q = true) ->
  verify_task sort cum_verify_lengths generation_cfg draft_output_tokens
    draft_output_token_prob draft_output_prob_dist i st
  = Ok {| vs_probs := vs_probs st; vs_rngs := vs_rngs st;
          request_mstates := <[i := m ++ toks]> (request_mstates st);
          accepted_tokens := <[i := a ++ toks]> (accepted_tokens st) |}.
Proof.
  intros Hs He Ht Hq Hlen Hm Ha Hall. unfold verify_task.
  rewrite Hs, He. cbn [of_option obind].
  rewrite <- Hlen, Nat2Z.id.
  apply (loop_all_accept toks qs); auto.
  intros k tok Hk. destruct (Hall k tok Hk) as (p_probs & q & p & H1 & H2 & H3 & H4).
  exists p_probs, q, p. rewrite Z.add_0_l.
  repeat split; auto; apply at_index_Ok; rewrite Nat2Z.id; split; auto; lia.
Qed.

(** X7: a draft token to which the target row assigns probability zero is
    never accepted when its draft probability is positive and the draw is
    not negative: the position always takes the rejection branch (resample
    on the residual row, then stop). *)
Theorem zero_target_probability_is_rejected idx st
    p_probs cur_token q_value p_value m a g q_dist cfg n :
  reads draft_output_tokens draft_output_token_prob i verify_start idx st
    p_probs cur_token q_value p_value m a ->
  reject_reads generation_cfg draft_output_prob_dist i idx st g q_dist cfg ->
  F32.is_zero p_value = true ->
  F32.gtb q_value F32.zero = true ->
  F32.gtb (F32.add q_value eps_) F32.zero = true ->
  F32.leb F32.zero (f32_of_f64 (draws g (cursor g))) = true ->
  let probs := set_row (vs_probs st) (verify_start + idx)
                 (residual_row p_probs (data1 q_dist)) in
  verify_loop sort generation_cfg draft_output_tokens draft_output_token_prob
    draft_output_prob_dist i verify_start (S n) idx st
  = (sampled <-- SampleTopPFromProb sort probs (verify_start + idx)
                   (resolved_top_p cfg) (draws g (S (cursor g))) ;;
     Ok (after_commit i m a (cast_int sampled.1.2) cur_token probs
           (<[i := advance 2 g]> (vs_rngs st)) st)).
Proof.
  intros Hreads Hrej Hp Hq Hqe Hr probs.
  assert (Hge : F32.geb p_value q_value = false).
  { unfold F32.geb, F32.gtb in *. destruct (SFleb q_value p_value) eqn:E; [|reflexivity].
    destruct p_value; try discriminate.
    apply leb_not_gtb in E. destruct q_value as [|[]| |[]]; discriminate. }
  assert (Hlt : F32.ltb (f32_of_f64 (draws g (cursor g)))
                  (F32.div p_value (F32.add q_value eps_)) = false).
  { assert (F32.is_zero (F32.div p_value (F32.add q_value eps_)) = true) as Hz.
    { unfold F32.gtb in Hqe. destruct p_value; try discriminate.
      destruct (F32.add q_value eps_) as [|[]| |[]]; try discriminate; reflexivity. }
    unfold F32.ltb, F32.leb in *.
    destruct (F32.div p_value (F32.add q_value eps_)); try discriminate.
    apply leb_not_gtb in Hr.
    destruct (f32_of_f64 (draws g (cursor g))) as [|[]| |[]]; try discriminate;
      reflexivity. }
  pose proof (step_reject sort generation_cfg draft_output_tokens draft_output_token_prob
                draft_output_prob_dist i verify_start idx st _ _ _ _ _ _ _ _ _
                Hreads Hrej Hge Hlt) as Hstep.
  cbv zeta in Hstep. fold probs in Hstep. cbn [verify_loop]. rewrite Hstep.
  destruct (SampleTopPFromProb sort probs (verify_start + idx) (resolved_top_p cfg)
              (draws g (S (cursor g)))); reflexivity.
Qed.
End Sequences.

(** ** A residual without mass *)

Lemma cdf_sum_zeros l :
  Forall (fun x => F32.is_zero x = true) l -> cdf_sum (S754_zero false) l = S754_zero false.
Proof.
  induction l as [|x l IH]; intros H; [reflexivity|].
  inversion H as [|? ? Hx Hl]; subst. cbn [cdf_sum foldl].
  destruct x as [[]| | |]; try discriminate; exact (IH Hl).
Qed.

Lemma residual_all_zero p_probs : forall p_qdist,
  Forall2 (fun p q =>
             valid_binary F32.prec F32.emax p = true /\
             valid_binary F32.prec F32.emax q = true /\
             finite p = true /\ finite q = true /\ F32.geb q p = true)
          p_probs p_qdist ->
  Forall (fun x => F32.is_zero x = true) (residual p_probs p_qdist).
Proof.
  induction p_probs as [|p ps IH]; intros qs H; inversion H as [|? q ? qs' Hpq Hrest]; subst.
  - constructor.
  - destruct Hpq as (Vp & Vq & Fp & Fq & Hge). cbn [residual zip_with].
    constructor; [now apply residual_entry_zero | now apply IH].
Qed.

Lemma residual_row_without_mass p_probs p_qdist :
  Forall2 (fun p q =>
             valid_binary F32.prec F32.emax p = true /\
             valid_binary F32.prec F32.emax q = true /\
             finite p = true /\ finite q = true /\ F32.geb q p = true)
          p_probs p_qdist ->
  Forall (fun x => is_nan x = true) (residual_row p_probs p_qdist).
Proof.
  intros H. apply residual_all_zero in H. unfold residual_row, normalized, sum_of.
  change (foldl (fun s x => F64.add s (f64_of_f32 x)) F64.zero (residual p_probs p_qdist))
    with (cdf_sum (S754_zero false) (residual p_probs p_qdist)).
  rewrite (cdf_sum_zeros _ H).
  induction H as [|x l Hx Hl IH]; cbn [map]; constructor; auto.
  destruct x as [[]| | |]; try discriminate; reflexivity.
Qed.

Section ResidualWithoutMass.
Variable sort : list (F32.t * Z) -> list (F32.t * Z).
Variable generation_cfg : list GenerationConfig.
Variable draft_output_tokens : list (list Z).
Variable draft_output_token_prob : list (list F32.t).
Variable draft_output_prob_dist : list (list NDArray1).
Variable i : nat.
Variables verify_start cur_token_idx : Z.
Variable st : VerifyState.

(** X8: when a draft token is rejected although the draft distribution is
    at least the target row at every index (finite entries), the residual
    has no mass, the division by its zero sum turns the row into NaN, and
    the resample returns token [-1], which is committed, if top_p resolves
    to 0, and fails a check otherwise. *)
Theorem rejection_without_residual_mass
    p_probs cur_token q_value p_value m a g q_dist cfg n :
  reads draft_output_tokens draft_output_token_prob i verify_start cur_token_idx st
    p_probs cur_token q_value p_value m a ->
  reject_reads generation_cfg draft_output_prob_dist i cur_token_idx st g q_dist cfg ->
  F32.geb p_value q_value = false ->
  F32.ltb (f32_of_f64 (draws g (cursor g))) (F32.div p_value (F32.add q_value eps_)) = false ->
  Forall2 (fun p q =>
             valid_binary F32.prec F32.emax p = true /\
             valid_binary F32.prec F32.emax q = true /\
             finite p = true /\ finite q = true /\ F32.geb q p = true)
          p_probs (data1 q_dist) ->
  let row := residual_row p_probs (data1 q_dist) in
  let probs := set_row (vs_probs st) (verify_start + cur_token_idx) row in
  Forall (fun x => is_nan x = true) row /\
  verify_loop sort generation_cfg draft_output_tokens draft_output_token_prob
    draft_output_prob_dist i verify_start (S n) cur_token_idx st
  = if F64.eqb (resolved_top_p cfg) F64.zero
    then Ok (after_commit i m a (-1) cur_token probs
               (<[i := advance 2 g]> (vs_rngs st)) st)
    else CheckFailed.
Proof.
  intros Hreads Hrej Hge Hr Hdom row probs.
  pose proof (residual_row_without_mass _ _ Hdom) as Hnan. fold row in Hnan.
  split; [exact Hnan|].
  pose proof (step_reject sort generation_cfg draft_output_tokens draft_output_token_prob
                draft_output_prob_dist i verify_start cur_token_idx st
                _ _ _ _ _ _ _ _ _ Hreads Hrej Hge Hr) as Hstep.
  cbv zeta in Hstep. fold row probs in Hstep.
  cbn [verify_loop]. rewrite Hstep.
  assert (Hrow : row_at probs (verify_start + cur_token_idx) = Ok row).
  { destruct Hreads as [Hrow _ _ _ _ _]. eapply row_at_set_row; eauto. }
  unfold SampleTopPFromProb. rewrite Hrow. cbn [obind].
  pose proof (nan_row_outcome sort row (resolved_top_p cfg)
                (draws g (S (cursor g))) Hnan) as Hs.
  destruct (SampleTopPFromProb_row sort row (resolved_top_p cfg) (draws g (S (cursor g))))
    as [r dist]. cbn [fst] in Hs. subst r.
  destruct (F64.eqb (resolved_top_p cfg) F64.zero); reflexivity.
Qed.
End ResidualWithoutMass.

(** ** Batch sampling, row by row *)





Section RowWise.
Variable sort : list (F32.t * Z) -> list (F32.t * Z).
Variable probs_host : NDArray.
Variable generation_cfg : list GenerationConfig.
Variable rngs : list RandomGenerator.
Variable out_dist : option (list (option (list F32.t))).
Variable out_probs : option (list F32.t).
Variable n : nat.
Hypothesis cfg_length : length generation_cfg = n.
Hypothesis rngs_length : length rngs = n.

Local Abbreviation out := (resize n None <$> out_dist).








End RowWise.







(** ** The host buffer, call by call *)

Lemma grow_loop_ge fuel : forall init_size num_tokens r,
  grow_loop fuel init_size num_tokens = Ok r -> init_size <= r /\ num_tokens <= r.
Proof.
  induction fuel as [|fuel IH]; intros c n r; cbn [grow_loop];
    destruct (Z.ltb_spec c n); try discriminate.
  - intros [= <-]; lia.
  - destruct (Z.leb_spec (2 * c) int64_max); [|discriminate].
    intros Hr; apply IH in Hr; lia.
  - intros [= <-]; lia.
Qed.

Lemma CopyProbsToCPU_inv (probs_host_ : option HostBuffer) (a : NDArray) view cache :
  CopyProbsToCPU probs_host_ a = Ok (view, cache) ->
  device_type a <> kDLCPU /\
  view = {| device_type := kDLCPU; shape1 := shape1 a; rows := rows a |} /\
  exists h, cache = Some h /\ hb_shape1 h = shape1 a /\ shape0 a <= hb_shape0 h /\
            capacity probs_host_ <= hb_shape0 h.
Proof.
  unfold CopyProbsToCPU. intros H.
  destruct (device_eqb (device_type a) kDLCPU) eqn:Hdev; cbn [negb check obind] in H;
    [discriminate|].
  split; [intros E; rewrite E in Hdev; discriminate|].
  destruct probs_host_ as [h|]; cbn [capacity].
  - destruct (Z.eqb_spec (hb_shape1 h) (shape1 a)) as [Hw|Hw];
      cbn [check obind] in H; [|discriminate].
    destruct (grow_loop 64 (hb_shape0 h) (shape0 a)) as [r| |] eqn:Hr;
      cbn [obind] in H; try discriminate.
    apply grow_loop_ge in Hr.
    destruct (Z.eqb_spec r (hb_shape0 h)) as [E|E]; cbn [negb hb_shape0] in H.
    + destruct (Z.leb_spec (shape0 a) (hb_shape0 h)); cbn [check obind] in H;
        [|discriminate].
      injection H as <- <-. split; [reflexivity|].
      exists h. split; [reflexivity|]. split; [assumption|]. lia.
    + destruct (Z.leb_spec (shape0 a) r); cbn [check obind] in H; [|discriminate].
      injection H as <- <-. split; [reflexivity|].
      eexists. split; [reflexivity|]. cbn [hb_shape0 hb_shape1].
      split; [reflexivity|]. lia.
  - cbn [obind] in H.
    destruct (grow_loop 64 32 (shape0 a)) as [r| |] eqn:Hr;
      cbn [obind] in H; try discriminate.
    apply grow_loop_ge in Hr. cbn [hb_shape0] in H.
    destruct (Z.leb_spec (shape0 a) r); cbn [check obind] in H; [|discriminate].
    injection H as <- <-. split; [reflexivity|].
    eexists. split; [reflexivity|]. cbn [hb_shape0 hb_shape1].
    split; [reflexivity|]. lia.
Qed.

Lemma grow_loop_covered fuel init_size num_tokens :
  num_tokens <= init_size -> grow_loop fuel init_size num_tokens = Ok init_size.
Proof.
  intros H. destruct fuel; cbn [grow_loop]; destruct (Z.ltb_spec init_size num_tokens);
    try lia; reflexivity.
Qed.

Lemma CopyProbsToCPU_covered (h : HostBuffer) (a : NDArray) :
  device_type a <> kDLCPU -> hb_shape1 h = shape1 a -> shape0 a <= hb_shape0 h ->
  CopyProbsToCPU (Some h) a
  = Ok ({| device_type := kDLCPU; shape1 := shape1 a; rows := rows a |}, Some h).
Proof.
  intros Hdev Hw Hcov. unfold CopyProbsToCPU.
  assert (device_eqb (device_type a) kDLCPU = false) as ->
    by (destruct (device_type a); simpl; congruence).
  cbn [negb check obind]. rewrite Hw, Z.eqb_refl. cbn [check obind].
  rewrite grow_loop_covered by assumption. cbn [obind].
  rewrite Z.eqb_refl. cbn [negb].
  destruct (Z.leb_spec (shape0 a) (hb_shape0 h)); [reflexivity|lia].
Qed.

(** X11: a successful copy leaves a host buffer that serves the same batch
    again as it is: repeating the call returns the same view and the same
    buffer, without a new allocation. *)
Theorem repeated_copy_reuses_the_buffer (probs_host_ : option HostBuffer) (a : NDArray)
    view cache :
  CopyProbsToCPU probs_host_ a = Ok (view, cache) ->
  CopyProbsToCPU cache a = Ok (view, cache).
Proof.
  intros H. apply CopyProbsToCPU_inv in H.
  destruct H as (Hdev & -> & h & -> & Hw & Hcov & _).
  now apply CopyProbsToCPU_covered.
Qed.

(** X12: with at most 2^62 rows and a cached buffer of positive capacity,
    CopyProbsToCPU fails a check exactly when the input is host-resident or
    the cached buffer has another vocabulary width; the final check of the
    row count against the buffer never fails, and the doubling does not
    overflow. *)
Theorem copy_fails_only_on_residency_or_width (probs_host_ : option HostBuffer)
    (a : NDArray) :
  0 < capacity probs_host_ -> shape0 a <= 2^62 ->
  (CopyProbsToCPU probs_host_ a = CheckFailed <->
   device_type a = kDLCPU \/
   exists h, probs_host_ = Some h /\ hb_shape1 h <> shape1 a) /\
  CopyProbsToCPU probs_host_ a <> Undefined.
Proof.
  intros Hcap Hrows.
  destruct (device_eqb (device_type a) kDLCPU) eqn:Hdev.
  - assert (Hcpu : device_type a = kDLCPU)
      by (destruct (device_type a); try discriminate; reflexivity).
    rewrite (CopyProbsToCPU_on_host probs_host_ a Hcpu).
    split; [split; auto|discriminate].
  - assert (Hd : device_type a <> kDLCPU)
      by (intros E; rewrite E in Hdev; discriminate).
    destruct probs_host_ as [h|].
    + destruct (Z.eq_dec (hb_shape1 h) (shape1 a)) as [Hw|Hw].
      * destruct (CopyProbsToCPU_ok (Some h) a Hd) as (j & _ & -> & _);
          [split; assumption | exact Hrows |].
        split; [|discriminate]. split; [discriminate|].
        intros [Hc|(h' & Hh & Hne)]; [contradiction|].
        injection Hh as <-. contradiction.
      * rewrite (CopyProbsToCPU_width_change h a Hw).
        split; [split; eauto|discriminate].
    + destruct (CopyProbsToCPU_ok None a Hd) as (j & _ & -> & _);
        [exact I | exact Hrows |].
      split; [|discriminate]. split; [discriminate|].
      intros [Hc|(h' & Hh & Hne)]; [contradiction|discriminate].
Qed.

(** ** Draft verification: the draws it consumes *)

Section DrawBudget.
Variable sort : list (F32.t * Z) -> list (F32.t * Z).
Variable generation_cfg : list GenerationConfig.
Variable draft_output_tokens : list (list Z).
Variable draft_output_token_prob : list (list F32.t).
Variable draft_output_prob_dist : list (list NDArray1).
Variable i : nat.
Variable verify_start : Z.

Local Abbreviation step idx st :=
  (verify_position sort generation_cfg draft_output_tokens draft_output_token_prob
     draft_output_prob_dist i verify_start idx st).

Local Abbreviation loop n idx st :=
  (verify_loop sort generation_cfg draft_output_tokens draft_output_token_prob
     draft_output_prob_dist i verify_start n idx st).

Lemma verify_position_draws idx st st' b g :
  step idx st = Ok (st', b) ->
  vs_rngs st !! i = Some g ->
  exists d : nat,
    vs_rngs st' !! i = Some (advance d g) /\ (if b then (d <= 1)%nat else d = 2%nat).
Proof.
  intros Hstep Hg.
  assert (Hlen : (i < length (vs_rngs st))%nat) by (eapply lookup_lt_Some; eauto).
  unfold verify_position in Hstep.
  destruct (row_at (vs_probs st) (verify_start + idx)) as [p_probs| |]; try discriminate.
  cbn [obind] in Hstep.
  destruct (draft_output_tokens !! i) as [toks|]; try discriminate.
  cbn [obind of_option] in Hstep.
  destruct (at_index toks idx) as [tok| |]; try discriminate. cbn [obind] in Hstep.
  destruct (draft_output_token_prob !! i) as [qs|]; try discriminate.
  cbn [obind of_option] in Hstep.
  destruct (at_index qs idx) as [q_value| |]; try discriminate. cbn [obind] in Hstep.
  destruct (at_index p_probs tok) as [p_value| |]; try discriminate. cbn [obind] in Hstep.
  destruct (F32.geb p_value q_value).
  { unfold commit_and_record in Hstep.
    destruct (request_mstates st !! i); try discriminate. cbn [obind of_option] in Hstep.
    destruct (accepted_tokens st !! i); try discriminate. cbn [obind of_option] in Hstep.
    injection Hstep as <- <-. exists 0%nat. cbn [vs_rngs]. rewrite Hg.
    split; [destruct g; reflexivity | lia]. }
  unfold draw at 1 in Hstep. rewrite Hg in Hstep.
  cbn [obind of_option GetRandomNumber] in Hstep.
  destruct (F32.ltb _ _).
  { unfold commit_and_record in Hstep. cbn [request_mstates accepted_tokens] in Hstep.
    destruct (request_mstates st !! i); try discriminate. cbn [obind of_option] in Hstep.
    destruct (accepted_tokens st !! i); try discriminate. cbn [obind of_option] in Hstep.
    injection Hstep as <- <-. exists 1%nat. cbn [vs_rngs].
    rewrite list_lookup_insert_eq by assumption. split; [reflexivity | lia]. }
  destruct (draft_output_prob_dist !! i) as [dists|]; try discriminate.
  cbn [obind of_option] in Hstep.
  destruct (at_index dists idx) as [q_dist| |]; try discriminate. cbn [obind] in Hstep.
  destruct (check (device_eqb (device_type1 q_dist) kDLCPU)); try discriminate.
  cbn [obind] in Hstep.
  destruct (check (_ =? _)); try discriminate. cbn [obind] in Hstep.
  destruct (generation_cfg !! i) as [cfg|]; try discriminate.
  cbn [obind of_option] in Hstep.
  unfold draw in Hstep. cbn [vs_rngs] in Hstep.
  rewrite list_lookup_insert_eq in Hstep by assumption.
  cbn [obind of_option GetRandomNumber draws cursor] in Hstep.
  destruct (SampleTopPFromProb _ _ _ _ _) as [sampled| |]; try discriminate.
  cbn [obind] in Hstep.
  unfold commit_and_record in Hstep. cbn [request_mstates accepted_tokens] in Hstep.
  destruct (request_mstates st !! i); try discriminate. cbn [obind of_option] in Hstep.
  destruct (accepted_tokens st !! i); try discriminate. cbn [obind of_option] in Hstep.
  injection Hstep as <- <-. exists 2%nat. cbn [vs_rngs].
  rewrite list_lookup_insert_eq by (rewrite length_insert; assumption).
  split; reflexivity.
Qed.

(** X13: a sequence's verification consumes at most one draw per draft
    position and one more for the resample: when the loop over [n] positions
    returns, the generator of the sequence is the one it started with,
    advanced by [d <= n + 1] draws. *)
Theorem verification_draws_at_most_one_per_position_plus_one n : forall idx st st' g,
  verify_loop sort generation_cfg draft_output_tokens draft_output_token_prob
    draft_output_prob_dist i verify_start n idx st = Ok st' ->
  vs_rngs st !! i = Some g ->
  exists d : nat, vs_rngs st' !! i = Some (advance d g) /\ (d <= n + 1)%nat.
Proof.
  induction n as [|n IH]; intros idx st st' g Hloop Hg; cbn [verify_loop] in Hloop.
  - injection Hloop as <-. exists 0%nat. rewrite Hg.
    split; [destruct g; reflexivity | lia].
  - destruct (step idx st) as [[st1 b]| |] eqn:Hstep; cbn [obind] in Hloop;
      try discriminate.
    destruct (verify_position_draws idx st st1 b g Hstep Hg) as (d1 & Hg1 & Hd1).
    destruct b.
    + destruct (IH _ _ _ _ Hloop Hg1) as (d & Hg' & Hd).
      exists (d + d1)%nat. split; [|lia].
      rewrite Hg'. unfold advance. cbn [draws cursor]. do 2 f_equal. lia.
    + injection Hloop as <-. exists d1. split; [assumption | lia].
Qed.
End DrawBudget.

(** * Concrete runs of the further properties *)

Lemma X1_witness :
  Forall (fun x => is_nan x = true) nan_row /\
  (SampleTopPFromProb_row isort nan_row (F64.lit 9 10) (F64.lit 1 2)).1 = CheckFailed /\
  (SampleTopPFromProb_row isort nan_row F64.zero (F64.lit 1 2)).1 = Ok (F32.one, -1).
Proof.
  assert (H : Forall (fun x => is_nan x = true) nan_row) by (repeat constructor).
  split; [exact H|]. split.
  - exact (nan_row_fails_or_returns_minus_one isort nan_row (F64.lit 9 10) (F64.lit 1 2) H).
  - exact (nan_row_fails_or_returns_minus_one isort nan_row F64.zero (F64.lit 1 2) H).
Defined.

Lemma X2_witness :
  let u := F64.lit 6 10 in
  F64.eqb F64.one F64.zero = false /\
  F64.geb F64.one one = true /\
  (SampleTopPFromProb_row isort example_row F64.one u).1 = Ok (f32_lit 3 10, 1) /\
  exists k : nat,
    1 = Z.of_nat k /\ example_row !! k = Some (f32_lit 3 10) /\
    F64.geb (cdf_sum F64.zero (take (S k) example_row)) u = true /\
    forall j : nat, (j < k)%nat ->
                    F64.geb (cdf_sum F64.zero (take (S j) example_row)) u = false.
Proof.
  intros u.
  assert (H1 : F64.eqb F64.one F64.zero = false) by (vm_compute; reflexivity).
  assert (H2 : F64.geb F64.one one = true) by (vm_compute; reflexivity).
  assert (Hs : (SampleTopPFromProb_row isort example_row F64.one u).1
               = Ok (f32_lit 3 10, 1)) by (vm_compute; reflexivity).
  split; [exact H1|]. split; [exact H2|]. split; [exact Hs|].
  exact (proj1 (proj1 (inverse_cdf_returns_first_index_reaching_draw isort example_row
                         F64.one u H1 H2) (f32_lit 3 10) 1) Hs).
Defined.

Lemma X3_witness :
  (forall l, Permutation (isort l) l) /\
  Z.of_nat (length example_row) <= 2^31 /\
  (SampleTopPFromProb_row isort example_row (F64.lit 7 10) (F64.lit 1 10)).1
  = Ok (f32_lit 1 2, 0) /\
  ((0 = -1 /\ F64.eqb (F64.lit 7 10) F64.zero = true) \/
   (0 <= 0 < Z.of_nat (length example_row) /\
    exists x, example_row !! Z.to_nat 0 = Some x /\ is_nan x = false)).
Proof.
  assert (Hlen : Z.of_nat (length example_row) <= 2^31) by (vm_compute; discriminate).
  assert (Hs : (SampleTopPFromProb_row isort example_row (F64.lit 7 10) (F64.lit 1 10)).1
               = Ok (f32_lit 1 2, 0)) by (vm_compute; reflexivity).
  split; [exact isort_perm|]. split; [exact Hlen|]. split; [exact Hs|].
  exact (returned_token_is_a_row_index isort isort_perm example_row (F64.lit 7 10)
           (F64.lit 1 10) (f32_lit 1 2) 0 Hlen Hs).
Defined.

Lemma X4_witness :
  let top_p := F64.lit 7 10 in
  let u := F64.lit 9 10 in
  let data := sorted_candidates isort F32.zero example_row in
  let r := sample_top_p_with_filter isort example_row top_p u F32.zero in
  (forall l, Permutation (isort l) l) /\
  F64.ltb F64.zero top_p = true /\
  F64.ltb u F64.one = true /\
  finite_nonzero (cum_loop top_p data F32.zero F32.zero).2 = true /\
  r <> no_selection /\
  length data = 3%nat /\
  nucleus_size top_p data F32.zero = 2%nat /\
  r.2 ∈ (take (nucleus_size top_p data F32.zero) data).*2.
Proof.
  intros top_p u data r.
  assert (H0 : F64.ltb F64.zero top_p = true) by (vm_compute; reflexivity).
  assert (H1 : F64.ltb u F64.one = true) by (vm_compute; reflexivity).
  assert (H2 : finite_nonzero (cum_loop top_p data F32.zero F32.zero).2 = true)
    by (vm_compute; reflexivity).
  assert (H3 : r <> no_selection) by (vm_compute; discriminate).
  split; [exact isort_perm|]. split; [exact H0|]. split; [exact H1|].
  split; [exact H2|]. split; [exact H3|].
  split; [vm_compute; reflexivity|]. split; [vm_compute; reflexivity|].
  exact (proj2 (selection_stays_inside_nucleus isort isort_perm example_row top_p u
                  F32.zero H0 H1 H2 H3)).
Defined.

Lemma X5_witness :
  exists st',
    verify_loop isort [greedy_cfg] [[0]] [[f32_lit 3 4]] [[draft_dist]] 0 0 1 0
      verify_start_state = Ok st' /\
    [[0]] !! 0%nat = Some [0] /\
    request_mstates verify_start_state !! 0%nat = Some [] /\
    accepted_tokens verify_start_state !! 0%nat = Some [] /\
    exists (k : nat) committed,
      (k <= 1)%nat /\ ((0 < 1)%nat -> (0 < k)%nat) /\
      accepted_tokens st' !! 0%nat = Some ([] ++ take k (drop (Z.to_nat 0) [0])) /\
      request_mstates st' !! 0%nat = Some ([] ++ committed) /\
      length committed = k.
Proof.
  eexists.
  assert (Hloop : verify_loop isort [greedy_cfg] [[0]] [[f32_lit 3 4]] [[draft_dist]]
                    0 0 1 0 verify_start_state = Ok ?[st'])
    by (vm_compute; reflexivity).
  split; [exact Hloop|]. split; [reflexivity|]. split; [reflexivity|].
  split; [reflexivity|].
  destruct (verify_loop_records_draft_prefix isort [greedy_cfg] [[0]] [[f32_lit 3 4]]
              [[draft_dist]] 0 0 1 0 verify_start_state _ [0] [] []
              Hloop Logic.eq_refl Logic.eq_refl Logic.eq_refl)
    as (k & committed & Hk & Hpos & Hacc & _ & Hm & Hlen & _).
  exists k, committed.
  split; [exact Hk|]. split; [exact Hpos|]. split; [exact Hacc|].
  split; [exact Hm | exact Hlen].
Defined.

Lemma X6_witness :
  [0; 1] !! 0%nat = Some 0 /\
  [0; 1] !! 1%nat = Some 1 /\
  Z.of_nat (length [1]) = 1 - 0 /\
  (forall (k : nat) tok, [1] !! k = Some tok ->
     exists p_probs q p,
       row_at (vs_probs verify_start_state) (0 + Z.of_nat k) = Ok p_probs /\
       [f32_lit 1 8] !! k = Some q /\
       at_index p_probs tok = Ok p /\ F32.geb p q = true) /\
  verify_task isort [0; 1] [greedy_cfg] [[1]] [[f32_lit 1 8]] [[draft_dist]] 0
    verify_start_state
  = Ok {| vs_probs := vs_probs verify_start_state;
          vs_rngs := vs_rngs verify_start_state;
          request_mstates := <[0%nat := [] ++ [1]]> (request_mstates verify_start_state);
          accepted_tokens := <[0%nat := [] ++ [1]]> (accepted_tokens verify_start_state) |}.
Proof.
  assert (Hall : forall (k : nat) tok, [1] !! k = Some tok ->
     exists p_probs q p,
       row_at (vs_probs verify_start_state) (0 + Z.of_nat k) = Ok p_probs /\
       [f32_lit 1 8] !! k = Some q /\
       at_index p_probs tok = Ok p /\ F32.geb p q = true).
  { intros [|k] tok Hk; [|discriminate]. injection Hk as <-.
    exists target_row, (f32_lit 1 8), (f32_lit 1 2).
    split; [reflexivity|]. split; [reflexivity|]. split; [reflexivity|].
    vm_compute; reflexivity. }
  split; [reflexivity|]. split; [reflexivity|]. split; [reflexivity|].
  split; [exact Hall|].
  exact (dominating_target_accepts_whole_draft isort [greedy_cfg] [[1]] [[f32_lit 1 8]]
           [[draft_dist]] 0 0 [0; 1] 1 verify_start_state [1] [f32_lit 1 8] [] []
           Logic.eq_refl Logic.eq_refl Logic.eq_refl Logic.eq_refl Logic.eq_refl
           Logic.eq_refl Logic.eq_refl Hall).
Defined.

Lemma unsupported_token_reads :
  reads [[0]] [[f32_lit 3 4]] 0 0 0 unsupported_state
    unsupported_row 0 (f32_lit 3 4) F32.zero [] [].
Proof.
  constructor; try reflexivity; eexists; split; reflexivity.
Defined.

Lemma unsupported_token_reject_reads :
  reject_reads [greedy_cfg] [[draft_dist]] 0 0 unsupported_state
    two_draws draft_dist greedy_cfg.
Proof.
  constructor; try reflexivity. eexists; split; reflexivity.
Defined.

Lemma X7_witness :
  let probs := set_row (vs_probs unsupported_state) (0 + 0)
                 (residual_row unsupported_row (data1 draft_dist)) in
  reads [[0]] [[f32_lit 3 4]] 0 0 0 unsupported_state
    unsupported_row 0 (f32_lit 3 4) F32.zero [] [] /\
  reject_reads [greedy_cfg] [[draft_dist]] 0 0 unsupported_state
    two_draws draft_dist greedy_cfg /\
  F32.is_zero F32.zero = true /\
  F32.gtb (f32_lit 3 4) F32.zero = true /\
  F32.gtb (F32.add (f32_lit 3 4) eps_) F32.zero = true /\
  F32.leb F32.zero (f32_of_f64 (draws two_draws (cursor two_draws))) = true /\
  verify_loop isort [greedy_cfg] [[0]] [[f32_lit 3 4]] [[draft_dist]] 0 0 1 0
    unsupported_state
  = (sampled <-- SampleTopPFromProb isort probs (0 + 0) (resolved_top_p greedy_cfg)
                   (draws two_draws (S (cursor two_draws))) ;;
     Ok (after_commit 0 [] [] (cast_int sampled.1.2) 0 probs
           (<[0%nat := advance 2 two_draws]> (vs_rngs unsupported_state))
           unsupported_state)).
Proof.
  intros probs.
  assert (H1 : F32.is_zero F32.zero = true) by reflexivity.
  assert (H2 : F32.gtb (f32_lit 3 4) F32.zero = true) by (vm_compute; reflexivity).
  assert (H3 : F32.gtb (F32.add (f32_lit 3 4) eps_) F32.zero = true)
    by (vm_compute; reflexivity).
  assert (H4 : F32.leb F32.zero (f32_of_f64 (draws two_draws (cursor two_draws))) = true)
    by (vm_compute; reflexivity).
  split; [exact unsupported_token_reads|].
  split; [exact unsupported_token_reject_reads|].
  split; [exact H1|]. split; [exact H2|]. split; [exact H3|]. split; [exact H4|].
  exact (zero_target_probability_is_rejected isort [greedy_cfg] [[0]] [[f32_lit 3 4]]
           [[draft_dist]] 0 0 0 unsupported_state unsupported_row 0 (f32_lit 3 4)
           F32.zero [] [] two_draws draft_dist greedy_cfg 0
           unsupported_token_reads unsupported_token_reject_reads H1 H2 H3 H4).
Defined.

Lemma flat_position_reads :
  reads [[0]] [[f32_lit 5000001 10000000]] 0 0 0 flat_state
    flat_row 0 (f32_lit 5000001 10000000) (f32_lit 1 2) [] [].
Proof.
  constructor; try reflexivity; eexists; split; reflexivity.
Defined.

Lemma flat_position_reject_reads :
  reject_reads [greedy_cfg] [[above_flat_dist]] 0 0 flat_state
    high_draws above_flat_dist greedy_cfg.
Proof.
  constructor; try reflexivity. eexists; split; reflexivity.
Defined.

Lemma X8_witness :
  let row := residual_row flat_row (data1 above_flat_dist) in
  let probs := set_row (vs_probs flat_state) (0 + 0) row in
  reads [[0]] [[f32_lit 5000001 10000000]] 0 0 0 flat_state
    flat_row 0 (f32_lit 5000001 10000000) (f32_lit 1 2) [] [] /\
  reject_reads [greedy_cfg] [[above_flat_dist]] 0 0 flat_state
    high_draws above_flat_dist greedy_cfg /\
  F32.geb (f32_lit 1 2) (f32_lit 5000001 10000000) = false /\
  F32.ltb (f32_of_f64 (draws high_draws (cursor high_draws)))
    (F32.div (f32_lit 1 2) (F32.add (f32_lit 5000001 10000000) eps_)) = false /\
  Forall2 (fun p q =>
             valid_binary F32.prec F32.emax p = true /\
             valid_binary F32.prec F32.emax q = true /\
             finite p = true /\ finite q = true /\ F32.geb q p = true)
          flat_row (data1 above_flat_dist) /\
  Forall (fun x => is_nan x = true) row /\
  verify_loop isort [greedy_cfg] [[0]] [[f32_lit 5000001 10000000]] [[above_flat_dist]]
    0 0 1 0 flat_state
  = Ok (after_commit 0 [] [] (-1) 0 probs
          (<[0%nat := advance 2 high_draws]> (vs_rngs flat_state)) flat_state).
Proof.
  intros row probs.
  assert (Hge : F32.geb (f32_lit 1 2) (f32_lit 5000001 10000000) = false)
    by (vm_compute; reflexivity).
  assert (Hr : F32.ltb (f32_of_f64 (draws high_draws (cursor high_draws)))
                 (F32.div (f32_lit 1 2) (F32.add (f32_lit 5000001 10000000) eps_))
               = false) by (vm_compute; reflexivity).
  assert (Hdom : Forall2 (fun p q =>
             valid_binary F32.prec F32.emax p = true /\
             valid_binary F32.prec F32.emax q = true /\
             finite p = true /\ finite q = true /\ F32.geb q p = true)
          flat_row (data1 above_flat_dist)).
  { repeat constructor; vm_compute; reflexivity. }
  split; [exact flat_position_reads|]. split; [exact flat_position_reject_reads|].
  split; [exact Hge|]. split; [exact Hr|]. split; [exact Hdom|].
  exact (rejection_without_residual_mass isort [greedy_cfg] [[0]]
           [[f32_lit 5000001 10000000]] [[above_flat_dist]] 0 0 0 flat_state
           flat_row 0 (f32_lit 5000001 10000000) (f32_lit 1 2) [] [] high_draws
           above_flat_dist greedy_cfg 0
           flat_position_reads flat_position_reject_reads Hge Hr Hdom).
Defined.



Lemma X11_witness :
  let view := {| device_type := kDLCPU; shape1 := 4; rows := rows (device_array 4 40) |} in
  let cache := Some {| hb_shape0 := 64; hb_shape1 := 4 |} in
  CopyProbsToCPU None (device_array 4 40) = Ok (view, cache) /\
  CopyProbsToCPU cache (device_array 4 40) = Ok (view, cache).
Proof.
  intros view cache.
  assert (Hcopy : CopyProbsToCPU None (device_array 4 40) = Ok (view, cache))
    by (vm_compute; reflexivity).
  split; [exact Hcopy|].
  exact (repeated_copy_reuses_the_buffer None (device_array 4 40) view cache Hcopy).
Defined.

Lemma X12_witness :
  let cache := Some {| hb_shape0 := 64; hb_shape1 := 8 |} in
  0 < capacity cache /\
  shape0 (device_array 4 40) <= 2^62 /\
  CopyProbsToCPU cache (device_array 4 40) = CheckFailed /\
  CopyProbsToCPU cache (device_array 4 40) <> Undefined.
Proof.
  intros cache.
  assert (Hcap : 0 < capacity cache) by (vm_compute; reflexivity).
  assert (Hrows : shape0 (device_array 4 40) <= 2^62) by (vm_compute; discriminate).
  split; [exact Hcap|]. split; [exact Hrows|].
  destruct (copy_fails_only_on_residency_or_width cache (device_array 4 40) Hcap Hrows)
    as [Hiff Hdef].
  split; [|exact Hdef].
  apply Hiff. right. exists {| hb_shape0 := 64; hb_shape1 := 8 |}.
  split; [reflexivity | discriminate].
Defined.

Lemma X13_witness :
  exists st',
    verify_loop isort [greedy_cfg] [[0]] [[f32_lit 3 4]] [[draft_dist]] 0 0 1 0
      verify_start_state = Ok st' /\
    vs_rngs verify_start_state !! 0%nat = Some two_draws /\
    exists d : nat, vs_rngs st' !! 0%nat = Some (advance d two_draws) /\ (d <= 1 + 1)%nat.
Proof.
  eexists.
  assert (Hloop : verify_loop isort [greedy_cfg] [[0]] [[f32_lit 3 4]] [[draft_dist]]
                    0 0 1 0 verify_start_state = Ok ?[st'])
    by (vm_compute; reflexivity).
  split; [exact Hloop|]. split; [reflexivity|].
  exact (verification_draws_at_most_one_per_position_plus_one isort [greedy_cfg] [[0]]
           [[f32_lit 3 4]] [[draft_dist]] 0 0 1 0 verify_start_state _ two_draws
           Hloop Logic.eq_refl).
Defined.
